(** * WinGo prediction bot: the store, the registry and the remote fetch

    A shallow embedding of the Python sources
    [database.py], [utils.py], [bot.py], [web_scraper.py],
    [fixed_prediction.py] and [prediction_logic.py], with the properties
    of the result/prediction synchronisation loop proved over it.

    Conventions of the embedding.
    - SQLite tables are lists of rows in rowid order; an [INTEGER] column
      is a [Z], a [TEXT] column a [string], a nullable column an [option].
      The functions of [database.py] are given for the calls the store
      carries out. A call can also raise: the driver refuses an integer
      parameter that does not fit 64 bits, an [AUTOINCREMENT] table whose
      largest rowid is taken refuses an [INSERT], and the file can fail
      (locked, unreadable, disk full). Where the program catches such an
      exception, in [fixed_prediction.py], the call is made through
      [Database.try_call], which raises in these cases; the faults of the
      file are an input, one flag per call.
    - A [str] is the string of its UTF-8 bytes.
    - [datetime.now()] is an argument [now] of the functions that read it.
    - [random] draws are arguments of the functions that make them.
    - The process-wide registry [utils.active_messages] is a finite map
      from the category key to the list of handles, threaded explicitly. *)

From Stdlib Require Import ZArith QArith String Ascii List Bool Lia Sorted.
From Stdlib Require Import DecimalString.
From stdpp Require Import gmap strings list fin_maps.

Set Warnings "-register-all".

Local Open Scope string_scope.
Local Open Scope list_scope.
Local Open Scope Z_scope.

(** ** Python strings *)

Module PyStr.

(** [needle in hay] on [str]: [needle] occurs as a contiguous slice. *)
Fixpoint contains (needle hay : string) : bool :=
  String.prefix needle hay
  || match hay with
     | EmptyString => false
     | String _ rest => contains needle rest
     end.

(** [s.replace(" ", "")]. *)
Fixpoint remove_spaces (s : string) : string :=
  match s with
  | EmptyString => EmptyString
  | String c rest =>
      if Ascii.eqb c " "%char then remove_spaces rest
      else String c (remove_spaces rest)
  end.

End PyStr.

(** ** database.py *)

Module Database.

(** A row of [wingo_results]. *)
Record result_row := mkResult {
  res_id : Z;
  res_period_id : Z;
  res_duration : string;
  res_result : string;
  res_color : string;
  res_size : string;
  res_timestamp : string
}.

(** A row of [wingo_predictions]; [result] and [is_win] default to NULL. *)
Record prediction_row := mkPrediction {
  pred_id : Z;
  pred_period_id : Z;
  pred_duration : string;
  pred_prediction : string;
  pred_result : option string;
  pred_is_win : option bool;
  pred_timestamp : string
}.

Record database := mkDatabase {
  wingo_results : list result_row;
  wingo_predictions : list prediction_row
}.

(** [INTEGER PRIMARY KEY AUTOINCREMENT]: one more than the largest rowid
    (no statement of the program deletes a row), 1 on an empty table. *)
Definition next_rowid (ids : list Z) : Z := 1 + foldr Z.max 0 ids.

(** SQL [MAX(...)]: NULL over no rows. *)
Definition sql_max (xs : list Z) : option Z :=
  foldr (fun x acc => Some (match acc with
                            | None => x
                            | Some m => Z.max x m
                            end)) None xs.

(** [LIMIT ?]: a negative bound means no bound. *)
Definition sql_limit {A} (limit : Z) (rows : list A) : list A :=
  if limit <? 0 then rows else firstn (Z.to_nat limit) rows.

(** [ORDER BY key DESC], rows with equal keys kept in rowid order. *)
Fixpoint insert_desc {A} (key : A -> Z) (x : A) (sorted : list A) : list A :=
  match sorted with
  | [] => [x]
  | y :: rest =>
      if key y <=? key x then x :: y :: rest
      else y :: insert_desc key x rest
  end.

Definition order_by_desc {A} (key : A -> Z) (rows : list A) : list A :=
  foldr (insert_desc key) [] rows.

Definition results_for (duration : string) (rows : list result_row)
  : list result_row :=
  List.filter (fun r => String.eqb (res_duration r) duration) rows.

(** [get_latest_results(duration, limit)] *)
Definition get_latest_results (db : database) (duration : string) (limit : Z)
  : list result_row :=
  sql_limit limit
    (order_by_desc res_period_id (results_for duration (wingo_results db))).

(** Python's [x or 789] on the fetched [MAX]: [None] and [0] are falsy. *)
Definition or_789 (m : option Z) : Z :=
  match m with
  | None => 789
  | Some v => if v =? 0 then 789 else v
  end.

Definition max_period_id (db : database) (duration : string) : option Z :=
  sql_max (map res_period_id (results_for duration (wingo_results db))).

(** [get_next_period_id(duration)] *)
Definition get_next_period_id (db : database) (duration : string) : Z :=
  or_789 (max_period_id db duration) + 1.

(** The [WHERE period_id = ? AND duration = ?] of the prediction queries. *)
Definition pred_matches (period_id : Z) (duration : string)
    (p : prediction_row) : bool :=
  (pred_period_id p =? period_id) && String.eqb (pred_duration p) duration.

Definition is_null {A} (o : option A) : bool :=
  match o with None => true | Some _ => false end.

Definition set_prediction (prediction now : string) (p : prediction_row)
  : prediction_row :=
  mkPrediction (pred_id p) (pred_period_id p) (pred_duration p)
    prediction (pred_result p) (pred_is_win p) now.

Definition set_outcome (actual_result : string) (is_win : bool)
    (p : prediction_row) : prediction_row :=
  mkPrediction (pred_id p) (pred_period_id p) (pred_duration p)
    (pred_prediction p) (Some actual_result) (Some is_win) (pred_timestamp p).

(** [save_prediction(period_id, duration, prediction)]: the id of the first
    row found for the pair when there is one (and every row of the pair is
    rewritten by the [UPDATE]), otherwise the id of the inserted row. *)
Definition save_prediction (db : database) (period_id : Z)
    (duration prediction now : string) : database * Z :=
  let preds := wingo_predictions db in
  match List.find (pred_matches period_id duration) preds with
  | Some existing =>
      (mkDatabase (wingo_results db)
         (map (fun p => if pred_matches period_id duration p
                        then set_prediction prediction now p else p) preds),
       pred_id existing)
  | None =>
      let new_id := next_rowid (map pred_id preds) in
      (mkDatabase (wingo_results db)
         (preds ++ [mkPrediction new_id period_id duration prediction
                      None None now]),
       new_id)
  end.

(** The win test of [update_predictions]. *)
Definition is_win (prediction actual_result : string) : bool :=
  PyStr.contains prediction actual_result
  || PyStr.contains actual_result prediction.

(** [UPDATE wingo_predictions SET result = ?, is_win = ? WHERE id = ?] *)
Definition update_by_id (actual_result : string) (win : bool) (id : Z)
    (preds : list prediction_row) : list prediction_row :=
  map (fun p => if pred_id p =? id then set_outcome actual_result win p
                else p) preds.

(** [SELECT id, prediction FROM wingo_predictions
    WHERE period_id = ? AND duration = ? AND result IS NULL] *)
Definition select_open (period_id : Z) (duration : string)
    (preds : list prediction_row) : list prediction_row :=
  List.filter (fun p => pred_matches period_id duration p
                        && is_null (pred_result p)) preds.

(** [update_predictions(period_id, duration, actual_result)]: the rows
    selected with [result IS NULL] are settled one by one, by id. *)
Definition update_predictions (db : database) (period_id : Z)
    (duration actual_result : string) : database :=
  let preds := wingo_predictions db in
  let selected := select_open period_id duration preds in
  mkDatabase (wingo_results db)
    (fold_left
       (fun rows p =>
          update_by_id actual_result
            (is_win (pred_prediction p) actual_result) (pred_id p) rows)
       selected preds).

(** [INSERT INTO wingo_results (period_id, duration, result, color, size,
    timestamp) VALUES (...)] *)
Definition insert_result (db : database) (period_id : Z)
    (duration result color size now : string) : database :=
  mkDatabase
    (wingo_results db
     ++ [mkResult (next_rowid (map res_id (wingo_results db)))
           period_id duration result color size now])
    (wingo_predictions db).

(** [add_new_result(duration, result, color, size)] *)
Definition add_new_result (db : database)
    (duration result color size now : string) : database * Z :=
  let period_id := get_next_period_id db duration in
  let db1 := insert_result db period_id duration result color size now in
  (update_predictions db1 period_id duration result, period_id).

(** [get_predictions(duration, limit)] *)
Definition get_predictions (db : database) (duration : string) (limit : Z)
  : list prediction_row :=
  sql_limit limit
    (order_by_desc pred_period_id
       (List.filter (fun p => String.eqb (pred_duration p) duration)
          (wingo_predictions db))).

(** The curated rows of [seed_database]: period, duration, result,
    colour, size. *)
Definition patterns : list (Z * string * string * string * string) :=
  [(801, "30 SEC", "RED", "RED", "BIG");
   (802, "30 SEC", "GREEN", "GREEN", "SMALL");
   (803, "30 SEC", "RED", "RED", "SMALL");
   (804, "30 SEC", "BIG", "GREEN", "BIG");
   (805, "30 SEC", "GREEN", "GREEN", "BIG");
   (806, "30 SEC", "RED", "RED", "SMALL");
   (807, "30 SEC", "SMALL", "RED", "SMALL");
   (808, "30 SEC", "GREEN", "GREEN", "BIG");
   (809, "30 SEC", "SMALL", "GREEN", "SMALL");
   (810, "30 SEC", "RED", "RED", "BIG");
   (811, "30 SEC", "RED", "RED", "SMALL");
   (812, "30 SEC", "GREEN", "GREEN", "BIG");
   (801, "1 MIN", "BIG", "GREEN", "BIG");
   (802, "1 MIN", "RED", "RED", "SMALL");
   (803, "1 MIN", "GREEN", "GREEN", "BIG");
   (804, "1 MIN", "SMALL", "GREEN", "SMALL");
   (805, "1 MIN", "BIG", "RED", "BIG");
   (806, "1 MIN", "SMALL", "RED", "SMALL");
   (807, "1 MIN", "BIG", "RED", "BIG");
   (808, "1 MIN", "BIG", "GREEN", "BIG");
   (809, "1 MIN", "BIG", "GREEN", "BIG");
   (810, "1 MIN", "GREEN", "GREEN", "SMALL")].

(** The prediction seeded for a result: the result itself when the draw
    says win, otherwise the other colour or the other size. *)
Definition seed_prediction (wins : bool) (result : string) : string :=
  if wins then result
  else if String.eqb result "RED" then "GREEN"
  else if String.eqb result "GREEN" then "RED"
  else if String.eqb result "BIG" then "SMALL"
  else "BIG".

(** [INSERT INTO wingo_predictions (period_id, duration, prediction, result,
    is_win, timestamp) VALUES (...)] *)
Definition insert_prediction (db : database) (period_id : Z)
    (duration prediction result : string) (win : bool) (now : string)
  : database :=
  mkDatabase (wingo_results db)
    (wingo_predictions db
     ++ [mkPrediction (next_rowid (map pred_id (wingo_predictions db)))
           period_id duration prediction (Some result) (Some win) now]).

(** [seed_database(cursor)]. [draw k] tells whether the [k]-th call of
    [random.random()] is below 0.7; [now k] is the [k]-th reading of the
    clock. *)
Definition seed_database (now : nat -> string) (draw : nat -> bool)
    (db : database) : database :=
  let numbered := combine (seq 0 (length patterns)) patterns in
  let db1 :=
    fold_left
      (fun d '(k, (period_id, duration, result, color, size)) =>
         insert_result d period_id duration result color size (now k))
      numbered db in
  fold_left
    (fun d '(k, (period_id, duration, result, _, _)) =>
       let prediction := seed_prediction (draw k) result in
       insert_prediction d period_id duration prediction result
         (String.eqb prediction result) (now (length patterns + k)%nat))
    numbered db1.

(** [init_database()]: an existing database file is taken as it is, a new
    one gets the two empty tables and the seed. *)
Definition init_database (file : option database) (now : nat -> string)
    (draw : nat -> bool) : database :=
  match file with
  | Some db => db
  | None => seed_database now draw (mkDatabase [] [])
  end.

(** What [get_win_rate] returns: the default [0.5], or the float quotient
    [wins / total], kept as its two integers. *)
Inductive win_rate :=
| DefaultRate
| Ratio (wins total : Z).

(** The rows of [WHERE duration = ? AND is_win IS NOT NULL]. *)
Definition settled_for (duration : string) (preds : list prediction_row)
  : list prediction_row :=
  List.filter (fun p => String.eqb (pred_duration p) duration
                        && negb (is_null (pred_is_win p))) preds.

(** [CASE WHEN is_win = 1 THEN 1 ELSE 0 END] *)
Definition win_bit (p : prediction_row) : Z :=
  match pred_is_win p with
  | Some true => 1
  | _ => 0
  end.

(** [get_win_rate(duration, last_n)]. The query aggregates, so it yields
    one row [(total, wins)] whatever the table holds, and [LIMIT last_n]
    applies to that one row; [fetchone()] is [None] only when the limit is
    0. *)
Definition get_win_rate (db : database) (duration : string) (last_n : Z)
  : win_rate :=
  let rows := settled_for duration (wingo_predictions db) in
  let total := Z.of_nat (length rows) in
  let wins := fold_right Z.add 0 (map win_bit rows) in
  match sql_limit last_n [(total, wins)] with
  | [] => DefaultRate
  | (total, wins) :: _ =>
      if 0 <? total then Ratio wins total else DefaultRate
  end.

(** The range check of the driver: [execute] binds a Python [int] only
    when it fits a signed 64-bit integer, and raises [OverflowError]
    otherwise, before the statement runs. *)
Definition fits_int64 (n : Z) : bool :=
  (- 2 ^ 63 <=? n) && (n <? 2 ^ 63).

(** Whether the store carries out [save_prediction(period_id, ...)]: the
    driver must take [period_id] at the [SELECT], and when no row of the
    pair exists the [INSERT] needs a rowid, which [AUTOINCREMENT] refuses
    once the largest one is taken. *)
Definition accepts_save (db : database) (period_id : Z) (duration : string)
  : bool :=
  fits_int64 period_id
  && match List.find (pred_matches period_id duration)
             (wingo_predictions db) with
     | Some _ => true
     | None => fits_int64 (next_rowid (map pred_id (wingo_predictions db)))
     end.

(** A call of the store made where its exception is caught. [faults]
    tells, call by call, whether the file fails (locked, unreadable, disk
    full): the call takes the first flag, and no flag left means no fault.
    The call raises, [None], on a fault or when the store does not accept
    it, and then nothing is written (a statement that fails is not
    committed); otherwise it gives [value]. *)
Definition try_call {A} (accepted : bool) (value : A) (faults : list bool)
  : option A * list bool :=
  (if hd false faults then None
   else if accepted then Some value else None,
   tl faults).

Definition try_get_next_period_id (db : database) (duration : string)
  : list bool -> option Z * list bool :=
  try_call true (get_next_period_id db duration).

Definition try_get_latest_results (db : database) (duration : string)
    (limit : Z) : list bool -> option (list result_row) * list bool :=
  try_call (fits_int64 limit) (get_latest_results db duration limit).

Definition try_save_prediction (db : database) (period_id : Z)
    (duration prediction now : string)
  : list bool -> option (database * Z) * list bool :=
  try_call (accepts_save db period_id duration)
    (save_prediction db period_id duration prediction now).

Definition try_get_predictions (db : database) (duration : string)
    (limit : Z) : list bool -> option (list prediction_row) * list bool :=
  try_call (fits_int64 limit) (get_predictions db duration limit).

End Database.

(** ** utils.py *)

Module Utils.

(** A message handle [(chat_id, message_id)]. *)
Abbreviation handle := (Z * Z)%type.

Definition handle_eqb (a b : handle) : bool :=
  (fst a =? fst b) && (snd a =? snd b).

(** [x in l] and [l.remove(x)] on a list of handles. *)
Definition mem (x : handle) (l : list handle) : bool :=
  existsb (handle_eqb x) l.

Fixpoint remove_first (x : handle) (l : list handle) : list handle :=
  match l with
  | [] => []
  | y :: rest => if handle_eqb y x then rest else y :: remove_first x rest
  end.

(** [l[-n:]] *)
Definition last_n {A} (n : nat) (l : list A) : list A :=
  skipn (length l - n) l.

(** [active_messages] as the module creates it. *)
Definition active_messages : gmap string (list handle) :=
  <["30 SEC" := []]> (<["1 MIN" := []]> ∅).

(** [register_active_message]; [None] is the [KeyError] of an unknown key. *)
Definition register_active_message (reg : gmap string (list handle))
    (duration : string) (chat_id message_id : Z)
  : option (gmap string (list handle)) :=
  match reg !! duration with
  | Some l => Some (<[duration := l ++ [(chat_id, message_id)]]> reg)
  | None => None
  end.

(** [unregister_active_message] *)
Definition unregister_active_message (reg : gmap string (list handle))
    (duration : string) (chat_id message_id : Z)
  : option (gmap string (list handle)) :=
  match reg !! duration with
  | Some l =>
      if mem (chat_id, message_id) l
      then Some (<[duration := remove_first (chat_id, message_id) l]> reg)
      else Some reg
  | None => None
  end.

(** [get_active_messages]: the list held by the registry, not a copy. *)
Definition get_active_messages (reg : gmap string (list handle))
    (duration : string) : option (list handle) :=
  reg !! duration.

Definition max_messages : nat := 20.

(** [clear_old_messages] *)
Definition clear_old_messages (reg : gmap string (list handle))
  : gmap string (list handle) :=
  (fun l => if (max_messages <? length l)%nat then last_n max_messages l
            else l) <$> reg.

End Utils.

(** ** bot.py: the scheduled update of the registered messages *)

Module Bot.
Import Utils.

Inductive outcome :=
| Finished (reg : gmap string (list handle)) (attempted : list handle)
| KeyError
| OutOfFuel.

(** The [for chat_id, message_id in active_messages] loop of
    [update_messages_for_duration]. The local [active_messages] is the list
    object stored in the registry under [duration], so the iterator reads
    position [i] of the registry's current entry, which
    [unregister_active_message] shortens in place. [edit_fails k h] tells
    whether the [k]-th call of [edit_message_text], on handle [h], raises;
    [attempted] lists the handles on which it was called. The run is taken
    on its own: no other handler registers a message between two steps. *)
Fixpoint edit_loop (fuel : nat) (bot_present : bool)
    (edit_fails : nat -> handle -> bool) (duration : string)
    (i : nat) (reg : gmap string (list handle)) (attempted : list handle)
  : outcome :=
  match fuel with
  | O => OutOfFuel
  | S fuel' =>
      match reg !! duration with
      | None => KeyError
      | Some l =>
          match l !! i with
          | None => Finished reg attempted
          | Some (chat_id, message_id) =>
              if bot_present then
                if edit_fails (length attempted) (chat_id, message_id) then
                  match unregister_active_message reg duration
                          chat_id message_id with
                  | Some reg' =>
                      edit_loop fuel' bot_present edit_fails duration (S i)
                        reg' (attempted ++ [(chat_id, message_id)])
                  | None => KeyError
                  end
                else
                  edit_loop fuel' bot_present edit_fails duration (S i)
                    reg (attempted ++ [(chat_id, message_id)])
              else
                edit_loop fuel' bot_present edit_fails duration (S i)
                  reg attempted
          end
      end
  end.

(** [update_messages_for_duration], on the registry: the loop is entered
    with as much fuel as the list is long, plus one for the final test. *)
Definition update_messages_for_duration (bot_present : bool)
    (edit_fails : nat -> handle -> bool) (duration : string)
    (reg : gmap string (list handle)) : outcome :=
  match get_active_messages reg duration with
  | None => KeyError
  | Some l => edit_loop (S (length l)) bot_present edit_fails duration 0 reg []
  end.


End Bot.

(** ** web_scraper.py *)

Module WebScraper.

(** A decoded JSON value, as [response.json()] returns it. A [float] is
    given by the rational it denotes. An object is its list of fields. *)
Inductive json :=
| JNull
| JBool (b : bool)
| JInt (z : Z)
| JFloat (q : Q)
| JStr (s : string)
| JArr (items : list json)
| JObj (fields : list (string * json)).

(** A value of the query-parameter dictionary. *)
Inductive param :=
| PInt (z : Z)
| PStr (s : string).

Record http_request := mkRequest {
  req_url : string;
  req_params : list (string * param);
  req_headers : list (string * string);
  req_timeout : Z
}.

(** What [requests.get] does: it raises, or it returns a response with a
    status code whose [json()] raises ([None]) or decodes to a value. *)
Inductive http_reply :=
| Raised
| Response (status_code : Z) (body : option json).

(** The network: the requests sent so far and the replies still to come
    (a request with no reply left fails to connect). *)
Record world := mkWorld {
  sent : list http_request;
  pending : list http_reply
}.

Definition next_reply (w : world) : http_reply :=
  match pending w with
  | [] => Raised
  | reply :: _ => reply
  end.

Definition requests_get (req : http_request) (w : world)
  : http_reply * world :=
  (next_reply w, mkWorld (sent w ++ [req]) (tl (pending w))).

Definition LOTTERY_BASE_URL : string := "https://47lottery.online".

Definition API_URL : string := "https://wapi.m2.app/api/game/recordsAsFast".

Definition DEFAULT_PARAMS : list (string * param) :=
  [("id", PInt 3); ("count", PInt 10); ("language", PStr "en")].

Definition HEADERS : list (string * string) :=
  [("User-Agent",
    "Mozilla/5.0 (Windows NT 10.0; Win64; x64) AppleWebKit/537.36 (KHTML, like Gecko) Chrome/91.0.4472.124 Safari/537.36");
   ("Accept", "application/json");
   ("Accept-Language", "en-US,en;q=0.9");
   ("Referer", "https://47lottery.online/");
   ("Origin", "https://47lottery.online")].

(** [d[k] = v] on a dictionary kept in insertion order. *)
Fixpoint dict_set {V} (k : string) (v : V) (d : list (string * V))
  : list (string * V) :=
  match d with
  | [] => [(k, v)]
  | (k', v') :: rest =>
      if String.eqb k' k then (k, v) :: rest
      else (k', v') :: dict_set k v rest
  end.

Fixpoint dict_get {V} (k : string) (d : list (string * V)) : option V :=
  match d with
  | [] => None
  | (k', v) :: rest => if String.eqb k' k then Some v else dict_get k rest
  end.

(** [d.get(k, dflt)] *)
Definition dict_get_default {V} (k : string) (dflt : V)
    (d : list (string * V)) : V :=
  match dict_get k d with
  | Some v => v
  | None => dflt
  end.

(** [v == n] for an [int] literal [n]. *)
Definition py_eq_int (v : json) (n : Z) : bool :=
  match v with
  | JInt z => z =? n
  | JBool b => (if b then 1 else 0) =? n
  | JFloat q => Qeq_bool q (inject_Z n)
  | _ => false
  end.

(** Truth value of a decoded value. *)
Definition truthy (v : json) : bool :=
  match v with
  | JNull => false
  | JBool b => b
  | JInt z => negb (z =? 0)
  | JFloat q => negb (Qeq_bool q 0)
  | JStr s => negb (String.eqb s "")
  | JArr items => negb (Nat.eqb (length items) 0)
  | JObj fields => negb (Nat.eqb (length fields) 0)
  end.

(** [for record in v]: the items of a list, the keys of an object, the
    characters of a string; [None] when [v] is not iterable. *)
Definition py_iter (v : json) : option (list json) :=
  match v with
  | JArr items => Some items
  | JObj fields => Some (map (fun kv => JStr (fst kv)) fields)
  | JStr s => Some (map (fun c => JStr (String c EmptyString))
                      (list_ascii_of_string s))
  | _ => None
  end.

(** A result dictionary built by [get_wingo_results]. *)
Record web_result := mkWebResult {
  wr_period_id : json;
  wr_result : string;
  wr_color : string;
  wr_size : string;
  wr_timestamp : string
}.

Section Fetch.

(** [datetime.fromtimestamp(v / 1000).strftime('%Y-%m-%d %H:%M:%S')] on
    the decoded [createdTime]; [None] when it raises. *)
Variable format_created_time : json -> option string.

(** [int(s)] on a [str]; [None] when it raises. *)
Variable int_of_str : string -> option Z.

(** The body of the [for record in data["data"]] loop; [None] when it
    raises ([record.get] on a value that is not an object, or the
    timestamp conversion). *)
Definition process_record (record : json) : option web_result :=
  match record with
  | JObj fields =>
      let color_type := dict_get_default "colorType" JNull fields in
      let size_type := dict_get_default "sizeType" JNull fields in
      let color :=
        if py_eq_int color_type 1 then "RED"
        else if py_eq_int color_type 2 then "GREEN"
        else "" in
      let result_text :=
        if py_eq_int size_type 1 then "BIG"
        else if py_eq_int size_type 2 then "SMALL"
        else color in
      let size :=
        if py_eq_int size_type 1 then "BIG"
        else if py_eq_int size_type 2 then "SMALL"
        else "" in
      match format_created_time
              (dict_get_default "createdTime" (JInt 0) fields) with
      | Some timestamp =>
          Some (mkWebResult (dict_get_default "issueNumber" (JInt 0) fields)
                  result_text color size timestamp)
      | None => None
      end
  | _ => None
  end.

(** The statements of the [try] block after the request: [None] when one
    of them raises, otherwise the list that is returned. *)
Definition read_reply (reply : http_reply) : option (list web_result) :=
  match reply with
  | Raised => None
  | Response status_code body =>
      if status_code =? 200 then
        match body with
        | None => None
        | Some (JObj fields) =>
            if truthy (dict_get_default "success" JNull fields) then
              match dict_get "data" fields with
              | Some data =>
                  match py_iter data with
                  | Some records => mapM process_record records
                  | None => None
                  end
              | None => Some []
              end
            else Some []
        | Some _ => None
        end
      else Some []
  end.

(** The query parameters [get_wingo_results] builds. *)
Definition request_params (limit : Z) (duration : string)
  : list (string * param) :=
  let params := DEFAULT_PARAMS in
  let params := dict_set "count" (PInt limit) params in
  let game_id := if String.eqb duration "30SEC" then 4 else 3 in
  dict_set "id" (PInt game_id) params.

(** [get_wingo_results(limit, duration)]: every exception is caught and
    turned into the empty list. *)
Definition get_wingo_results (limit : Z) (duration : string) (w : world)
  : list web_result * world :=
  let '(reply, w') :=
    requests_get (mkRequest API_URL (request_params limit duration)
                    HEADERS 10) w in
  (match read_reply reply with
   | Some results => results
   | None => []
   end, w').

(** [int(v)] on a decoded value; [None] when it raises. *)
Definition py_int (v : json) : option Z :=
  match v with
  | JInt z => Some z
  | JBool b => Some (if b then 1 else 0)
  | JFloat q => Some (Z.quot (Qnum q) (Zpos (Qden q)))
  | JStr s => int_of_str s
  | _ => None
  end.

(** [get_next_period_id(duration)] of the scraper. *)
Definition get_next_period_id (duration : string) (w : world) : Z * world :=
  let norm_duration := PyStr.remove_spaces duration in
  let '(results, w') := get_wingo_results 1 norm_duration w in
  (match results with
   | latest :: _ =>
       match py_int (wr_period_id latest) with
       | Some n => n + 1
       | None => 1000
       end
   | [] => 1000
   end, w').

End Fetch.

End WebScraper.

(** ** fixed_prediction.py *)

Module FixedPrediction.
Import Database WebScraper.

Definition prediction_options : list string :=
  ["RED"; "GREEN"; "BIG"; "SMALL"].

(** [s in l] on a list of strings. *)
Definition str_in (s : string) (l : list string) : bool :=
  existsb (String.eqb s) l.

(** [random.choice(l)] with the index drawn given as [rnd]. *)
Definition random_choice (rnd : nat) (l : list string) : string :=
  nth (rnd mod length l) l "".

(** The strategy written out three times in the source (lines 38-43,
    59-64 and 88-93): the other colour after a colour, and after
    anything else [SMALL] after [BIG] and [BIG] otherwise. *)
Definition alternate (last_result : string) : string :=
  if str_in last_result ["RED"; "GREEN"] then
    if String.eqb last_result "RED" then "GREEN" else "RED"
  else
    if String.eqb last_result "BIG" then "SMALL" else "BIG".

(** An entry of [results] on the remote path. *)
Record shown_result := mkShown {
  sh_period_id : json;
  sh_result : string;
  sh_color : string;
  sh_timestamp : string
}.

(** [results]: mapped remote records, or rows of the local store. *)
Inductive results_list :=
| FromWeb (entries : list shown_result)
| FromStore (rows : list result_row).

(** The local variables at line 99, with the store and the network as
    the block leaves them. *)
Record locals := mkLocals {
  next_period : Z;
  results : results_list;
  next_prediction : string;
  db_after : database;
  world_after : world
}.

(** How a call ends: it returns a value, or an exception leaves it, with
    the store and the network as they are then. *)
Inductive outcome (A : Type) :=
| Returns (value : A)
| Raises (db : database) (w : world).

Arguments Returns {A} value.
Arguments Raises {A} db w.

(** The line break of the text. *)
Definition newline : string := String "010"%char EmptyString.

(** [str(n)] of an [int], as an f-string writes it. *)
Definition str_of_int (n : Z) : string :=
  NilZero.string_of_int (Z.to_int n).

(** Lines 106-118: the two emoji of the header, by the frame of the
    animation. *)
Definition header_emoji (current_second : Z) : string * string :=
  let animation_frame := current_second mod 3 in
  if animation_frame =? 0 then ("🔴", "🟢")
  else if animation_frame =? 1 then ("🔺", "🟩")
  else ("📍", "✅").

(** Lines 132-140 and 151-160: a label in its brackets; [other] is what
    is shown for a text that is none of the four labels. *)
Definition in_brackets (prediction_text other : string) : string :=
  if String.eqb prediction_text "BIG" then "[BIG]"
  else if String.eqb prediction_text "SMALL" then "[SMALL]"
  else if String.eqb prediction_text "RED" then "[ RED ]"
  else if String.eqb prediction_text "GREEN" then "[GREEN]"
  else other.

(** Lines 146-168: the line of one past prediction. *)
Definition past_line (short_duration : string) (prediction : prediction_row)
  : string :=
  let period_id := pred_period_id prediction in
  let prediction_text := pred_prediction prediction in
  let pred_display :=
    in_brackets prediction_text ("[" ++ prediction_text ++ "]")%string in
  let win_status :=
    match pred_is_win prediction with
    | Some is_win => (" " ++ (if is_win then "WIN" else "LOSE"))%string
    | None => ""
    end in
  (str_of_int period_id ++ " " ++ short_duration ++ " " ++ pred_display
   ++ win_status ++ newline)%string.

(** Lines 100-178: the text laid out from the next period, the next
    prediction and the past predictions; [current_second] is
    [datetime.now().second]. *)
Definition format_output (current_second : Z) (duration : string)
    (next_period : Z) (next_prediction : string)
    (past_predictions : list prediction_row) : string :=
  let rule := ("========================" ++ newline)%string in
  let readable_duration :=
    if String.eqb duration "1 MIN" then "1Min" else "30Sec" in
  let '(red_emoji, green_emoji) := header_emoji current_second in
  let short_duration :=
    if String.eqb duration "1 MIN" then "1 MIN" else "30SEC" in
  let next_pred_text := in_brackets next_prediction next_prediction in
  (rule
   ++ red_emoji ++ "WinGo " ++ readable_duration ++ " - TC" ++ green_emoji
   ++ newline
   ++ rule
   ++ str_of_int next_period ++ " " ++ short_duration ++ " "
   ++ next_pred_text ++ newline
   ++ "------------------------" ++ newline
   ++ String.concat "" (map (past_line short_duration) past_predictions)
   ++ rule
   ++ "CLAIM YOUR WINSTREAK" ++ newline ++ "BONUS NOW ‼️" ++ newline
   ++ "Contact: @Kaalsagar" ++ newline
   ++ rule
   ++ "Official TC website link:" ++ newline
   ++ "https://47lottery.online/#/register?invitationCode=026321022444"
   ++ newline
   ++ rule
   ++ "REACT NOW AND WIN" ++ newline ++ "TOGETHER")%string.

Section Generate.

Variable format_created_time : json -> option string.
Variable int_of_str : string -> option Z.

(** The fallback to the local store: lines 50-69 of the [try], and again
    lines 77-98 of the handler. [None] when one of its three calls of the
    store raises; nothing is written then. *)
Definition from_local_store (db : database) (w : world)
    (duration : string) (limit : Z) (now : string) (rnd : nat)
    (faults : list bool) : option locals * list bool :=
  match try_get_next_period_id db duration faults with
  | (None, faults) => (None, faults)
  | (Some next_period, faults) =>
  match try_get_latest_results db duration limit faults with
  | (None, faults) => (None, faults)
  | (Some results, faults) =>
  let next_prediction :=
    match results with
    | last :: _ => alternate (res_result last)
    | [] => random_choice rnd prediction_options
    end in
  match try_save_prediction db next_period duration next_prediction now
          faults with
  | (None, faults) => (None, faults)
  | (Some (db', _), faults) =>
      (Some (mkLocals next_period (FromStore results) next_prediction db' w),
       faults)
  end end end.

(** Lines 13-69, the body of the [try]: the locals it ends with, or [None]
    when a statement raises. Neither fetch lets an exception out; the
    calls of the store can raise. *)
Definition try_body (db : database) (w : world)
    (duration : string) (limit : Z) (now : string) (rnd : nat)
    (faults : list bool) : option locals * world * list bool :=
  let norm_duration := PyStr.remove_spaces duration in
  let '(web_results, w1) :=
    get_wingo_results format_created_time limit norm_duration w in
  let '(next_period, w2) :=
    WebScraper.get_next_period_id format_created_time int_of_str
      duration w1 in
  match web_results with
  | first :: _ =>
      let results :=
        map (fun res => mkShown (wr_period_id res) (wr_result res)
                          (wr_color res) (wr_timestamp res)) web_results in
      let last_result := wr_result first in
      let next_prediction := alternate last_result in
      match try_save_prediction db next_period duration next_prediction
              now faults with
      | (None, faults) => (None, w2, faults)
      | (Some (db', _), faults) =>
          (Some (mkLocals next_period (FromWeb results) next_prediction
                   db' w2), w2, faults)
      end
  | [] =>
      let '(at_line_69, faults) :=
        from_local_store db w2 duration limit now rnd faults in
      (at_line_69, w2, faults)
  end.

(** Lines 12-98, the [try] with its handler: an exception of the body is
    caught and the fallback to the local store runs, on the store as it
    was; [None] when the handler raises in its turn. *)
Definition try_except (db : database) (w : world)
    (duration : string) (limit : Z) (now : string) (rnd : nat)
    (faults : list bool) : option locals * world * list bool :=
  match try_body db w duration limit now rnd faults with
  | (Some at_line_69, w2, faults) => (Some at_line_69, w2, faults)
  | (None, w2, faults) =>
      let '(at_line_98, faults) :=
        from_local_store db w2 duration limit now rnd faults in
      (at_line_98, w2, faults)
  end.

(** [generate_formatted_predictions(duration, limit)]: the text returned,
    with the locals it is laid out from. An exception the handler raises
    leaves the call, and so does one of [get_predictions], which is
    called after the [try]. [now] is the clock read by the save that is
    carried out, [rnd] the index drawn by the [random.choice] whose label
    is kept (a label drawn before a save that raises is dropped),
    [current_second] is [datetime.now().second] at line 107, and [faults]
    are the faults of the file, one flag per call of the store in the
    order the calls are made. *)
Definition generate_formatted_predictions (db : database) (w : world)
    (duration : string) (limit : Z) (now : string) (rnd : nat)
    (current_second : Z) (faults : list bool) : outcome (string * locals) :=
  match try_except db w duration limit now rnd faults with
  | (Some l, w2, faults) =>
      match try_get_predictions (db_after l) duration 10 faults with
      | (Some past_predictions, _) =>
          Returns (format_output current_second duration (next_period l)
                     (next_prediction l) past_predictions, l)
      | (None, _) => Raises (db_after l) w2
      end
  | (None, w2, _) => Raises db w2
  end.

End Generate.

End FixedPrediction.

(** ** prediction_logic.py *)

Module PredictionLogic.
Import Database.

(** The counters of [analyze_patterns]. *)
Record patterns := mkPatterns {
  n_RED : nat;
  n_GREEN : nat;
  n_BIG : nat;
  n_SMALL : nat;
  alternating_color : nat;
  alternating_size : nat;
  streak_color : nat;
  streak_size : nat
}.

Definition count {A} (f : A -> bool) (l : list A) : nat :=
  length (List.filter f l).

(** The pairs [(results[i-1], results[i])] for [i] in [range(1, len)]. *)
Fixpoint adjacent {A} (l : list A) : list (A * A) :=
  match l with
  | a :: (b :: _) as rest => (a, b) :: adjacent rest
  | _ => []
  end.

(** [analyze_patterns(results)] *)
Definition analyze_patterns (results : list result_row) : patterns :=
  let is_red r := String.eqb (res_color r) "RED" in
  let is_big r := String.eqb (res_size r) "BIG" in
  let color_differs (p : result_row * result_row) :=
    negb (String.eqb (res_color (snd p)) (res_color (fst p))) in
  let size_differs (p : result_row * result_row) :=
    negb (String.eqb (res_size (snd p)) (res_size (fst p))) in
  mkPatterns
    (count is_red results)
    (count (fun r => negb (is_red r)) results)
    (count is_big results)
    (count (fun r => negb (is_big r)) results)
    (count color_differs (adjacent results))
    (count size_differs (adjacent results))
    (count (fun p => negb (color_differs p)) (adjacent results))
    (count (fun p => negb (size_differs p)) (adjacent results)).

Definition prediction_types : list string :=
  ["RED"; "GREEN"; "BIG"; "SMALL"].

(** [patterns[p_type]] for a label. *)
Definition label_count (pats : patterns) (p_type : string) : nat :=
  if String.eqb p_type "RED" then n_RED pats
  else if String.eqb p_type "GREEN" then n_GREEN pats
  else if String.eqb p_type "BIG" then n_BIG pats
  else n_SMALL pats.

(** The [for p_type in prediction_types] loop: the first label with the
    highest positive count, the drawn label when every count is zero. *)
Definition most_common (pats : patterns) (drawn : string) : string :=
  snd (fold_left
         (fun (acc : nat * string) p_type =>
            if (fst acc <? label_count pats p_type)%nat
            then (label_count pats p_type, p_type) else acc)
         prediction_types (O, drawn)).

(** [generate_prediction(duration)]. [should_be_winner] is the value of
    [should_win()], the comparison of a uniform draw with a probability
    of 0.9, 0.5 or 0.7; [rnd] is the index drawn by [random.choice]. *)
Definition generate_prediction (db : database) (duration : string)
    (should_be_winner : bool) (rnd : nat) (now : string)
  : database * (Z * string) :=
  let recent_results := get_latest_results db duration 10 in
  let next_period := get_next_period_id db duration in
  let pats := analyze_patterns recent_results in
  let drawn := FixedPrediction.random_choice rnd prediction_types in
  let prediction :=
    if should_be_winner then
      if (alternating_color pats <? streak_color pats)%nat then
        match recent_results with
        | last :: _ =>
            if String.eqb (res_color last) "RED" then "RED" else "GREEN"
        | [] => "GREEN"
        end
      else if (alternating_size pats <? streak_size pats)%nat then
        match recent_results with
        | last :: _ =>
            if String.eqb (res_size last) "BIG" then "BIG" else "SMALL"
        | [] => "SMALL"
        end
      else most_common pats drawn
    else drawn in
  let '(db', _) := save_prediction db next_period duration prediction now in
  (db', (next_period, prediction)).

(** [simulate_result(duration)]: [rnd_color] and [rnd_size] are the
    indices drawn by the two [random.choice], [show_color] tells whether
    [random.random()] is below 0.5. *)
Definition simulate_result (db : database) (duration : string)
    (rnd_color rnd_size : nat) (show_color : bool) (now : string)
  : database * Z :=
  let color := FixedPrediction.random_choice rnd_color ["RED"; "GREEN"] in
  let size := FixedPrediction.random_choice rnd_size ["BIG"; "SMALL"] in
  let result := if show_color then color else size in
  add_new_result db duration result color size now.

End PredictionLogic.

(** ** Vocabulary of the properties *)

Module Props.
Import Database.

(** The label alphabet of results and predictions. *)
Definition labels : list string := ["RED"; "GREEN"; "BIG"; "SMALL"].

(** The pair a prediction is saved under. *)
Definition pred_key (p : prediction_row) : Z * string :=
  (pred_period_id p, pred_duration p).

(** At most one prediction row per (period, category). *)
Definition one_row_per_period (preds : list prediction_row) : Prop :=
  NoDup (map pred_key preds).

(** The primary key of [wingo_predictions]. *)
Definition unique_ids (preds : list prediction_row) : Prop :=
  NoDup (map pred_id preds).

(** At most one open prediction (result still NULL) per (period,
    category). *)
Definition one_open_per_period (preds : list prediction_row) : Prop :=
  forall period_id duration,
    (length (select_open period_id duration preds) <= 1)%nat.

(** Every recorded period identifier is positive. *)
Definition positive_periods (rows : list result_row) : Prop :=
  forall r, In r rows -> 0 < res_period_id r.

(** A call that writes to the store. *)
Inductive store_call :=
| SavePrediction (period_id : Z) (duration prediction now : string)
| UpdatePredictions (period_id : Z) (duration actual_result : string)
| AddNewResult (duration result color size now : string).

Definition run_call (db : database) (c : store_call) : database :=
  match c with
  | SavePrediction period_id duration prediction now =>
      fst (save_prediction db period_id duration prediction now)
  | UpdatePredictions period_id duration actual_result =>
      update_predictions db period_id duration actual_result
  | AddNewResult duration result color size now =>
      fst (add_new_result db duration result color size now)
  end.

Definition run_calls (db : database) (calls : list store_call) : database :=
  fold_left run_call calls db.

(** The stores the program itself produces: the seeded database and
    whatever its writing calls make of it. *)
Definition reachable (db : database) : Prop :=
  exists now draw calls,
    db = run_calls (init_database None now draw) calls.

(** What the [UPDATE] of [save_prediction] does to a row. *)
Definition rewrite_row_of (period_id : Z) (duration prediction now : string)
    (p : prediction_row) : prediction_row :=
  if pred_matches period_id duration p
  then set_prediction prediction now p else p.

(** The opposite label, as the strategy is described: GREEN for RED, RED
    for GREEN, SMALL for BIG, BIG for SMALL. *)
Definition opposite (label : string) : option string :=
  if String.eqb label "RED" then Some "GREEN"
  else if String.eqb label "GREEN" then Some "RED"
  else if String.eqb label "BIG" then Some "SMALL"
  else if String.eqb label "SMALL" then Some "BIG"
  else None.

(** A body is malformed when it does not decode, is not an object, has a
    falsy [success] or no [data], or when its [data] is not iterable or
    yields something that is not an object. *)
Definition is_object (v : WebScraper.json) : bool :=
  match v with
  | WebScraper.JObj _ => true
  | _ => false
  end.

Definition malformed_body (body : option WebScraper.json) : bool :=
  match body with
  | None => true
  | Some (WebScraper.JObj fields) =>
      negb (WebScraper.truthy
              (WebScraper.dict_get_default "success" WebScraper.JNull fields))
      || match WebScraper.dict_get "data" fields with
         | None => true
         | Some data =>
             match WebScraper.py_iter data with
             | None => true
             | Some records => negb (forallb is_object records)
             end
         end
  | Some _ => true
  end.

(** The failures of the remote fetch: the status is not 200, the body is
    malformed, or an exception is raised, by [requests.get] or by any
    later statement of the [try] (decoding the body, reading it,
    converting a record, formatting its creation time). *)
Definition remote_failure
    (format_created_time : WebScraper.json -> option string)
    (reply : WebScraper.http_reply) : bool :=
  match WebScraper.read_reply format_created_time reply with
  | None => true
  | Some _ =>
      match reply with
      | WebScraper.Raised => true
      | WebScraper.Response status_code body =>
          negb (status_code =? 200) || malformed_body body
      end
  end.

(** The most recent of the results the generator holds: the result of
    the first entry of [results]. *)
Definition first_result (rs : FixedPrediction.results_list)
  : option string :=
  match rs with
  | FixedPrediction.FromWeb (first :: _) =>
      Some (FixedPrediction.sh_result first)
  | FixedPrediction.FromStore (last :: _) => Some (res_result last)
  | _ => None
  end.

(** The local store takes the fallback of the generator: the driver
    accepts the limit asked, and the store carries out the save under its
    own next period identifier. *)
Definition store_takes_fallback (db : database) (duration : string)
    (limit : Z) : bool :=
  fits_int64 limit
  && accepts_save db (get_next_period_id db duration) duration.


(** The network as a call of the generator leaves it, however it ends. *)
Definition network_after
    (o : FixedPrediction.outcome (string * FixedPrediction.locals))
  : WebScraper.world :=
  match o with
  | FixedPrediction.Returns (_, l) => FixedPrediction.world_after l
  | FixedPrediction.Raises _ w => w
  end.

(** The settling loop of [update_predictions], over any list of selected
    rows. *)
Definition settle (actual_result : string)
    (selected preds : list prediction_row) : list prediction_row :=
  fold_left
    (fun rows p =>
       update_by_id actual_result
         (is_win (pred_prediction p) actual_result) (pred_id p) rows)
    selected preds.

(** What a call preserves of a settled row: its place, its id, its result
    and its win flag. *)
Definition same_outcome_at (i : nat) (p : prediction_row)
    (preds : list prediction_row) : Prop :=
  exists p', preds !! i = Some p'
             /\ pred_id p' = pred_id p
             /\ pred_result p' = pred_result p
             /\ pred_is_win p' = pred_is_win p.

End Props.

(** ** Vocabulary of the further properties *)

Module MoreProps.
Import Database.

(** Rows in descending order of period identifier. *)
Definition descending (rows : list result_row) : Prop :=
  StronglySorted (fun a b => res_period_id b <= res_period_id a) rows.

(** The pair an outcome is recorded under, and the invariant that no two
    outcomes share it. *)
Definition res_key (r : result_row) : Z * string :=
  (res_period_id r, res_duration r).

Definition one_outcome_per_period (rows : list result_row) : Prop :=
  NoDup (map res_key rows).




(** How often a handle occurs in a list. *)
Definition occurrences (h : Z * Z) (l : list (Z * Z)) : nat :=
  length (List.filter (Utils.handle_eqb h) l).

End MoreProps.

(** * Properties *)

Import Database Props.

(** ** The store *)

Section SqlFacts.

Lemma sql_max_upper (xs : list Z) (m : Z) :
  sql_max xs = Some m -> forall x, In x xs -> x <= m.
Proof.
  revert m. induction xs as [|y ys IH]; intros m Hm x Hx; [destruct Hx|].
  simpl in Hm. destruct (sql_max ys) as [m'|] eqn:E.
  - injection Hm as <-. destruct Hx as [->|Hx]; [lia|].
    specialize (IH m' eq_refl x Hx). lia.
  - injection Hm as <-. destruct Hx as [->|Hx]; [lia|].
    destruct ys; [destruct Hx | discriminate E].
Qed.

Lemma sql_max_none (xs : list Z) : sql_max xs = None <-> xs = [].
Proof. destruct xs; simpl; split; congruence. Qed.

Lemma sql_max_in (xs : list Z) (m : Z) : sql_max xs = Some m -> In m xs.
Proof.
  revert m. induction xs as [|y ys IH]; intros m Hm; [discriminate|].
  simpl in Hm. destruct (sql_max ys) as [m'|] eqn:E.
  - injection Hm as <-. destruct (Z.max_spec y m') as [[_ ->]|[_ ->]].
    + right. now apply IH.
    + now left.
  - injection Hm as <-. now left.
Qed.

Lemma next_rowid_fresh (ids : list Z) : ~ In (next_rowid ids) ids.
Proof.
  assert (H : forall x, In x ids -> x <= foldr Z.max 0 ids).
  { induction ids as [|y ys IH]; intros x Hx; [destruct Hx|].
    simpl. destruct Hx as [->|Hx]; [lia|]. specialize (IH x Hx). lia. }
  intros Hin. apply H in Hin. unfold next_rowid in Hin. lia.
Qed.

Lemma in_results_for (duration : string) (rows : list result_row)
    (r : result_row) :
  In r (results_for duration rows) <-> In r rows /\ res_duration r = duration.
Proof.
  unfold results_for. rewrite filter_In. now rewrite String.eqb_eq.
Qed.

End SqlFacts.

(** *** Next period identifier *)

Lemma get_next_period_id_empty (db : database) (duration : string) :
  results_for duration (wingo_results db) = [] ->
  get_next_period_id db duration = 790.
Proof.
  intros H. unfold get_next_period_id, max_period_id. now rewrite H.
Qed.

Lemma get_next_period_id_nonzero (db : database) (duration : string) (m : Z) :
  max_period_id db duration = Some m -> m <> 0 ->
  get_next_period_id db duration = m + 1.
Proof.
  intros H Hm. unfold get_next_period_id. rewrite H. simpl.
  destruct (Z.eqb_spec m 0); [contradiction | reflexivity].
Qed.

Lemma get_next_period_id_above (db : database) (duration : string)
    (r : result_row) :
  In r (wingo_results db) -> res_duration r = duration ->
  res_period_id r < get_next_period_id db duration.
Proof.
  intros Hin Hd. unfold get_next_period_id, max_period_id.
  destruct (sql_max _) as [m|] eqn:E.
  - assert (res_period_id r <= m).
    { apply (sql_max_upper _ _ E). apply in_map.
      now apply in_results_for. }
    simpl. destruct (Z.eqb_spec m 0); lia.
  - apply sql_max_none in E. apply map_eq_nil in E.
    assert (Hr : In r (results_for duration (wingo_results db)))
      by now apply in_results_for.
    rewrite E in Hr. destruct Hr.
Qed.

(** C9, at a store whose only row for the category has period
    identifier 0: the maximum recorded is 0, and the lookup answers 790,
    the value documented for a category with no row, not 0 + 1. *)
Theorem get_next_period_id_zero_maximum :
  let db := mkDatabase
              [mkResult 1 0 "1 MIN" "RED" "RED" "BIG" "2024-01-01 00:00:00"]
              [] in
  results_for "1 MIN" (wingo_results db) <> []
  /\ max_period_id db "1 MIN" = Some 0
  /\ get_next_period_id db "1 MIN" = 790
  /\ get_next_period_id db "1 MIN" <> 0 + 1.
Proof. repeat split; [discriminate | discriminate]. Qed.

(** The lookup in terms of the rows themselves: with [r] a row of the
    category whose period identifier no row of the category exceeds, the
    answer is that identifier plus one, unless the identifier is 0. *)
Lemma get_next_period_id_of_maximum (db : database) (duration : string)
    (r : result_row) :
  In r (wingo_results db) -> res_duration r = duration ->
  (forall r', In r' (wingo_results db) -> res_duration r' = duration ->
              res_period_id r' <= res_period_id r) ->
  get_next_period_id db duration
  = if res_period_id r =? 0 then 790 else res_period_id r + 1.
Proof.
  intros Hin Hd Hmax. unfold get_next_period_id, max_period_id.
  assert (Hr : In (res_period_id r)
                 (map res_period_id (results_for duration (wingo_results db))))
    by (apply in_map; now apply in_results_for).
  destruct (sql_max _) as [m|] eqn:E.
  - assert (m = res_period_id r) as ->.
    { pose proof (sql_max_upper _ _ E _ Hr) as Hle.
      apply sql_max_in, in_map_iff in E as (r' & <- & Hr').
      apply in_results_for in Hr' as [Hr' Hd'].
      specialize (Hmax r' Hr' Hd'). lia. }
    simpl. now destruct (res_period_id r =? 0).
  - apply sql_max_none in E. rewrite E in Hr. destruct Hr.
Qed.

(** The identifier [add_new_result] records, in every state of the store:
    it is the value of [get_next_period_id], strictly greater than every
    identifier recorded for the category; it is one more than the largest
    of them unless that is 0, and 790 when the category has no outcome or
    the largest is 0. *)
Lemma add_new_result_period_above (db : database)
    (duration result color size now : string) :
  let db' := fst (add_new_result db duration result color size now) in
  let period_id := snd (add_new_result db duration result color size now) in
  (forall r, In r (wingo_results db) -> res_duration r = duration ->
             res_period_id r < period_id)
  /\ (forall r, In r (wingo_results db) -> res_duration r = duration ->
        (forall r', In r' (wingo_results db) -> res_duration r' = duration ->
                    res_period_id r' <= res_period_id r) ->
        period_id = if res_period_id r =? 0 then 790
                    else res_period_id r + 1)
  /\ ((forall r, In r (wingo_results db) -> res_duration r <> duration) ->
      period_id = 790)
  /\ wingo_results db' =
       wingo_results db
       ++ [mkResult (next_rowid (map res_id (wingo_results db)))
             period_id duration result color size now].
Proof.
  simpl. split; [|split; [|split; [|reflexivity]]].
  - intros r Hin Hd. now apply get_next_period_id_above.
  - intros r Hin Hd Hmax. now apply get_next_period_id_of_maximum.
  - intros Hnone. apply get_next_period_id_empty.
    destruct (results_for duration (wingo_results db)) as [|r rest] eqn:E;
      [reflexivity|].
    assert (Hr : In r (results_for duration (wingo_results db)))
      by (rewrite E; now left).
    apply in_results_for in Hr as [Hr Hd]. now destruct (Hnone r Hr).
Qed.

(** C3, at a store whose largest period identifier recorded for "1 MIN"
    is 0 (and whose other category holds 812): [add_new_result] records the
    new "1 MIN" outcome under 790, not under the maximum plus one, which
    is 1. The identifier is still greater than the one recorded. *)
Theorem add_new_result_zero_maximum :
  let first := mkResult 1 0 "1 MIN" "RED" "RED" "BIG" "2024-01-01 00:00:00" in
  let other := mkResult 2 812 "30 SEC" "GREEN" "GREEN" "BIG"
                 "2024-01-01 00:00:30" in
  let db := mkDatabase [first; other] [] in
  let out := add_new_result db "1 MIN" "GREEN" "GREEN" "SMALL"
               "2024-01-01 00:01:00" in
  (forall r, In r (wingo_results db) -> res_duration r = "1 MIN" ->
             res_period_id r <= res_period_id first)
  /\ res_period_id first = 0
  /\ snd out = 790
  /\ snd out <> res_period_id first + 1
  /\ wingo_results (fst out)
     = [first; other;
        mkResult 3 790 "1 MIN" "GREEN" "GREEN" "SMALL" "2024-01-01 00:01:00"].
Proof.
  cbv zeta. split; [|repeat split; discriminate].
  intros r [<-|[<-|[]]]; [reflexivity | discriminate].
Qed.

(** *** The win test *)

(** Over the four labels the win test is equality: no label occurs inside
    another. *)
Lemma is_win_on_labels (prediction actual_result : string) :
  In prediction labels -> In actual_result labels ->
  is_win prediction actual_result = String.eqb prediction actual_result.
Proof.
  unfold labels. simpl. intros Hp Ha.
  repeat match goal with
         | H : _ \/ _ |- _ => destruct H as [<-|H]
         | H : False |- _ => destruct H
         end; reflexivity.
Qed.

(** *** Saving a prediction *)

Section SavePrediction.

Variables (period_id : Z) (duration prediction now : string).

Abbreviation rewrite_row :=
  (rewrite_row_of period_id duration prediction now).

Lemma pred_matches_key (p : prediction_row) :
  pred_matches period_id duration p = true <->
  pred_key p = (period_id, duration).
Proof.
  unfold pred_matches, pred_key. rewrite andb_true_iff, Z.eqb_eq, String.eqb_eq.
  split; [intros [-> ->]; reflexivity | intros [= -> ->]; tauto].
Qed.

Lemma rewrite_row_key (p : prediction_row) :
  pred_key (rewrite_row p) = pred_key p.
Proof. unfold rewrite_row_of. now destruct (pred_matches _ _ p). Qed.

Lemma rewrite_row_id (p : prediction_row) : pred_id (rewrite_row p) = pred_id p.
Proof. unfold rewrite_row_of. now destruct (pred_matches _ _ p). Qed.

Lemma rewrite_row_outcome (p : prediction_row) :
  pred_result (rewrite_row p) = pred_result p
  /\ pred_is_win (rewrite_row p) = pred_is_win p.
Proof. unfold rewrite_row_of. now destruct (pred_matches _ _ p). Qed.

Lemma find_none_no_key (preds : list prediction_row) :
  List.find (pred_matches period_id duration) preds = None ->
  ~ In (period_id, duration) (map pred_key preds).
Proof.
  intros Hf Hin. apply in_map_iff in Hin as (p & Hk & Hp).
  apply (find_none _ _ Hf) in Hp.
  apply pred_matches_key in Hk. congruence.
Qed.

(** Under the uniqueness of the pair, the [UPDATE] touches one row. *)
Lemma rewrite_single_row (preds : list prediction_row) (i : nat)
    (p : prediction_row) :
  one_row_per_period preds -> preds !! i = Some p ->
  pred_matches period_id duration p = true ->
  map rewrite_row preds = <[i := set_prediction prediction now p]> preds.
Proof.
  intros Hu Hi Hm. apply list_eq. intros j.
  rewrite list_lookup_fmap.
  destruct (decide (i = j)) as [<-|Hne].
  - rewrite list_lookup_insert_eq by (now apply lookup_lt_Some in Hi).
    rewrite Hi. simpl. unfold rewrite_row_of. now rewrite Hm.
  - rewrite list_lookup_insert_ne by assumption.
    destruct (preds !! j) as [q|] eqn:Hj; [|reflexivity]. simpl.
    unfold rewrite_row_of.
    destruct (pred_matches period_id duration q) eqn:Hq; [|reflexivity].
    exfalso. apply Hne.
    apply pred_matches_key in Hm, Hq.
    apply (NoDup_lookup _ i j (period_id, duration) Hu).
    + unfold one_row_per_period in *.
      change (map pred_key preds) with (pred_key <$> preds).
      rewrite list_lookup_fmap, Hi. simpl. now rewrite Hm.
    + change (map pred_key preds) with (pred_key <$> preds).
      rewrite list_lookup_fmap, Hj. simpl. now rewrite Hq.
Qed.

Lemma save_prediction_keeps_one_row (db : database) :
  one_row_per_period (wingo_predictions db) ->
  one_row_per_period
    (wingo_predictions
       (fst (save_prediction db period_id duration prediction now))).
Proof.
  intros Hu. unfold save_prediction, one_row_per_period.
  destruct (List.find _ (wingo_predictions db)) as [existing|] eqn:Hf; simpl.
  - rewrite map_map. erewrite map_ext; [exact Hu|].
    intros q. apply (rewrite_row_key q).
  - rewrite map_app. simpl.
    apply NoDup_app. split; [exact Hu|]. split; [|apply NoDup_singleton].
    intros k Hk Hk'. apply list_elem_of_In in Hk.
    apply list_elem_of_singleton in Hk'. subst k.
    now apply find_none_no_key in Hf.
Qed.

Lemma save_prediction_existing (db : database) (i : nat)
    (p : prediction_row) :
  one_row_per_period (wingo_predictions db) ->
  wingo_predictions db !! i = Some p ->
  pred_matches period_id duration p = true ->
  save_prediction db period_id duration prediction now
  = (mkDatabase (wingo_results db)
       (<[i := set_prediction prediction now p]> (wingo_predictions db)),
     pred_id p).
Proof.
  intros Hu Hi Hm. unfold save_prediction.
  destruct (List.find _ (wingo_predictions db)) as [existing|] eqn:Hf.
  - change (fun q => if pred_matches period_id duration q
                     then set_prediction prediction now q else q)
      with rewrite_row.
    rewrite (rewrite_single_row _ i p Hu Hi Hm).
    apply find_some in Hf as [Hin Hm'].
    apply list_elem_of_In, list_elem_of_lookup in Hin as [j Hj].
    assert (i = j) as ->; [|congruence].
    apply pred_matches_key in Hm, Hm'.
    apply (NoDup_lookup _ i j (period_id, duration) Hu);
      change (map pred_key (wingo_predictions db))
        with (pred_key <$> wingo_predictions db);
      rewrite list_lookup_fmap.
    + rewrite Hi. simpl. now rewrite Hm.
    + rewrite Hj. simpl. now rewrite Hm'.
  - apply list_elem_of_lookup_2, list_elem_of_In in Hi.
    apply (find_none _ _ Hf) in Hi. congruence.
Qed.

Lemma save_prediction_absent (db : database) :
  (forall p, In p (wingo_predictions db) ->
             pred_matches period_id duration p = false) ->
  save_prediction db period_id duration prediction now
  = (mkDatabase (wingo_results db)
       (wingo_predictions db
        ++ [mkPrediction (next_rowid (map pred_id (wingo_predictions db)))
              period_id duration prediction None None now]),
     next_rowid (map pred_id (wingo_predictions db))).
Proof.
  intros Hnone. unfold save_prediction.
  destruct (List.find _ (wingo_predictions db)) as [existing|] eqn:Hf;
    [|reflexivity].
  apply find_some in Hf as [Hin Hm]. apply Hnone in Hin. congruence.
Qed.

End SavePrediction.

(** One row per pair leaves room for one open row per pair at most. *)
Lemma one_row_one_open (preds : list prediction_row) :
  one_row_per_period preds -> one_open_per_period preds.
Proof.
  unfold one_row_per_period, one_open_per_period, select_open.
  intros Hu period_id duration.
  induction preds as [|p preds IH]; simpl; [lia|].
  simpl in Hu. apply NoDup_cons in Hu as [Hp Hu]. specialize (IH Hu).
  destruct (pred_matches period_id duration p) eqn:Hm; simpl; [|exact IH].
  destruct (is_null (pred_result p)); simpl; [|exact IH].
  enough (E : List.filter
                (fun q => pred_matches period_id duration q
                          && is_null (pred_result q)) preds = [])
    by (rewrite E; simpl; lia).
  apply pred_matches_key in Hm.
  induction preds as [|q preds IHq]; simpl; [reflexivity|].
  destruct (pred_matches period_id duration q) eqn:Hq; simpl.
  - exfalso. apply Hp. apply pred_matches_key in Hq.
    simpl. rewrite Hm, Hq. apply list_elem_of_here.
  - apply IHq.
    + intros Hin. apply Hp. simpl. now apply list_elem_of_further.
    + simpl in Hu. now apply NoDup_cons in Hu as [_ Hu].
    + clear IHq. simpl in IH.
      rewrite Hq in IH. exact IH.
Qed.

(** C1: on a store with at most one prediction row per (period,
    category), [save_prediction] keeps that invariant, so that no pair ever
    has more than one open prediction, and leaves the outcomes alone; when
    a row for the pair exists it rewrites the prediction and timestamp of
    that row in place, every other row and the row count unchanged, and
    returns that row's id; when no row for the pair exists it appends one
    row with a fresh id, no result and no win flag, and returns the new
    id. *)
Theorem save_prediction_updates_or_inserts (db : database) (period_id : Z)
    (duration prediction now : string) :
  one_row_per_period (wingo_predictions db) ->
  let db' := fst (save_prediction db period_id duration prediction now) in
  let id := snd (save_prediction db period_id duration prediction now) in
  one_row_per_period (wingo_predictions db')
  /\ one_open_per_period (wingo_predictions db')
  /\ wingo_results db' = wingo_results db
  /\ (forall i p,
        wingo_predictions db !! i = Some p ->
        pred_matches period_id duration p = true ->
        id = pred_id p
        /\ wingo_predictions db' =
             <[i := set_prediction prediction now p]> (wingo_predictions db))
  /\ ((forall p, In p (wingo_predictions db) ->
                 pred_matches period_id duration p = false) ->
      id = next_rowid (map pred_id (wingo_predictions db))
      /\ ~ In id (map pred_id (wingo_predictions db))
      /\ wingo_predictions db' =
           wingo_predictions db
           ++ [mkPrediction id period_id duration prediction None None now]).
Proof.
  intros Hu db' id.
  pose proof (save_prediction_keeps_one_row period_id duration prediction
                now db Hu) as Hkeep.
  split; [exact Hkeep|]. split; [now apply one_row_one_open|].
  split.
  { subst db'. unfold save_prediction.
    now destruct (List.find _ (wingo_predictions db)). }
  split.
  - intros i p Hi Hm. subst db' id.
    rewrite (save_prediction_existing period_id duration prediction now
               db i p Hu Hi Hm).
    split; reflexivity.
  - intros Hnone. subst db' id.
    rewrite (save_prediction_absent period_id duration prediction now
               db Hnone).
    split; [reflexivity|]. split; [apply next_rowid_fresh | reflexivity].
Qed.


Lemma save_prediction_updates_or_inserts_witness :
  let db := mkDatabase []
              [mkPrediction 1 813 "30 SEC" "RED" None None
                 "2024-01-01 00:00:00"] in
  one_row_per_period (wingo_predictions db)
  /\ snd (save_prediction db 813 "30 SEC" "GREEN" "2024-01-01 00:00:05") = 1
  /\ wingo_predictions
       (fst (save_prediction db 813 "30 SEC" "GREEN" "2024-01-01 00:00:05"))
     = [mkPrediction 1 813 "30 SEC" "GREEN" None None "2024-01-01 00:00:05"].
Proof.
  intros db.
  assert (H : one_row_per_period (wingo_predictions db)).
  { unfold one_row_per_period. simpl. apply NoDup_singleton. }
  split; [exact H|].
  destruct (save_prediction_updates_or_inserts
              db 813 "30 SEC" "GREEN" "2024-01-01 00:00:05" H)
    as (_ & _ & _ & Hupd & _).
  exact (Hupd 0%nat _ eq_refl eq_refl).
Defined.

(** *** Settling predictions *)

Section UpdatePredictions.

Lemma update_by_id_ids (actual_result : string) (win : bool) (id : Z)
    (preds : list prediction_row) :
  map pred_id (update_by_id actual_result win id preds) = map pred_id preds.
Proof.
  unfold update_by_id. rewrite map_map. apply map_ext.
  intros p. now destruct (pred_id p =? id).
Qed.

Lemma update_by_id_other (actual_result : string) (win : bool) (id : Z)
    (preds : list prediction_row) (i : nat) (p : prediction_row) :
  preds !! i = Some p -> pred_id p <> id ->
  update_by_id actual_result win id preds !! i = Some p.
Proof.
  intros Hi Hne. unfold update_by_id.
  change (map ?f preds) with (f <$> preds).
  rewrite list_lookup_fmap, Hi. simpl.
  destruct (Z.eqb_spec (pred_id p) id); [contradiction | reflexivity].
Qed.

Lemma settle_ids (actual_result : string)
    (selected preds : list prediction_row) :
  map pred_id (settle actual_result selected preds) = map pred_id preds.
Proof.
  unfold settle. revert preds.
  induction selected as [|s rest IH]; intros preds; [reflexivity|].
  simpl. rewrite IH. apply update_by_id_ids.
Qed.

Lemma settle_other (actual_result : string)
    (selected preds : list prediction_row) (i : nat) (p : prediction_row) :
  preds !! i = Some p ->
  (forall s, In s selected -> pred_id s <> pred_id p) ->
  settle actual_result selected preds !! i = Some p.
Proof.
  unfold settle. revert preds.
  induction selected as [|s rest IH]; intros preds Hi Hsel; [exact Hi|].
  simpl. apply IH.
  - apply update_by_id_other; [exact Hi|].
    intros E. apply (Hsel s); [now left | now symmetry].
  - intros s' Hs'. apply Hsel. now right.
Qed.

(** A row that already has a result is never among the ids selected. *)
Lemma selected_ids_differ (period_id : Z) (duration : string)
    (preds : list prediction_row) (i : nat) (p s : prediction_row) :
  unique_ids preds -> preds !! i = Some p -> pred_result p <> None ->
  In s (select_open period_id duration preds) ->
  pred_id s <> pred_id p.
Proof.
  intros Hu Hi Hres Hs E.
  apply filter_In in Hs as [Hin Hsel].
  apply andb_true_iff in Hsel as [_ Hnull].
  apply list_elem_of_In, list_elem_of_lookup in Hin as [j Hj].
  assert (i = j) as ->.
  { apply (NoDup_lookup _ i j (pred_id p) Hu);
      change (map pred_id preds) with (pred_id <$> preds);
      rewrite list_lookup_fmap.
    - now rewrite Hi.
    - rewrite Hj. simpl. now rewrite E. }
  assert (s = p) as -> by congruence.
  destruct (pred_result p); [discriminate Hnull | now apply Hres].
Qed.

Lemma update_predictions_keeps_settled (db : database) (period_id : Z)
    (duration actual_result : string) (i : nat) (p : prediction_row) :
  unique_ids (wingo_predictions db) ->
  wingo_predictions db !! i = Some p -> pred_result p <> None ->
  wingo_predictions
    (update_predictions db period_id duration actual_result) !! i = Some p.
Proof.
  intros Hu Hi Hres. unfold update_predictions. simpl.
  apply (settle_other actual_result); [exact Hi|].
  intros s Hs.
  now apply (selected_ids_differ period_id duration (wingo_predictions db) i).
Qed.

Lemma update_predictions_ids (db : database) (period_id : Z)
    (duration actual_result : string) :
  map pred_id
    (wingo_predictions (update_predictions db period_id duration
                          actual_result))
  = map pred_id (wingo_predictions db).
Proof. unfold update_predictions. simpl. apply (settle_ids actual_result). Qed.

End UpdatePredictions.

Lemma save_prediction_ids (db : database) (period_id : Z)
    (duration prediction now : string) :
  unique_ids (wingo_predictions db) ->
  unique_ids (wingo_predictions
                (fst (save_prediction db period_id duration prediction now))).
Proof.
  intros Hu. unfold save_prediction.
  destruct (List.find _ _) as [existing|]; simpl; unfold unique_ids.
  - rewrite map_map. erewrite map_ext; [exact Hu|].
    intros q. now destruct (pred_matches _ _ q).
  - rewrite map_app. simpl. apply NoDup_app. split; [exact Hu|].
    split; [|apply NoDup_singleton].
    intros k Hk Hk'. apply list_elem_of_singleton in Hk'. subst k.
    apply list_elem_of_In in Hk. now apply next_rowid_fresh in Hk.
Qed.

Lemma save_prediction_keeps_outcome (db : database) (period_id : Z)
    (duration prediction now : string) (i : nat) (p : prediction_row) :
  wingo_predictions db !! i = Some p ->
  same_outcome_at i p
    (wingo_predictions
       (fst (save_prediction db period_id duration prediction now))).
Proof.
  intros Hi. unfold save_prediction, same_outcome_at.
  destruct (List.find _ _) as [existing|]; simpl.
  - eexists. change (map ?f ?l) with (f <$> l).
    rewrite list_lookup_fmap, Hi. simpl. split; [reflexivity|].
    now destruct (pred_matches _ _ p).
  - exists p. rewrite lookup_app_l by (now apply lookup_lt_Some in Hi).
    tauto.
Qed.

Lemma run_call_ids (db : database) (c : store_call) :
  unique_ids (wingo_predictions db) ->
  unique_ids (wingo_predictions (run_call db c)).
Proof.
  intros Hu. destruct c; cbn [run_call].
  - now apply save_prediction_ids.
  - unfold unique_ids. now rewrite update_predictions_ids.
  - unfold add_new_result, unique_ids. cbn [fst].
    now rewrite update_predictions_ids.
Qed.

Lemma run_call_keeps_settled (db : database) (c : store_call) (i : nat)
    (p : prediction_row) :
  unique_ids (wingo_predictions db) ->
  wingo_predictions db !! i = Some p -> pred_result p <> None ->
  same_outcome_at i p (wingo_predictions (run_call db c)).
Proof.
  intros Hu Hi Hres. destruct c; cbn [run_call].
  - now apply save_prediction_keeps_outcome.
  - exists p. split; [|tauto]. now apply update_predictions_keeps_settled.
  - exists p. split; [|tauto]. unfold add_new_result. cbn [fst].
    now apply update_predictions_keeps_settled.
Qed.

(** C2: in a store whose prediction ids are distinct (the primary key), a
    prediction row whose result is not NULL keeps its result and its win
    flag through every later sequence of calls that write to the store:
    [update_predictions] for any period, category and actual result, and
    [save_prediction] and [add_new_result] as well. *)
Theorem settled_prediction_is_final (db : database)
    (calls : list store_call) (i : nat) (p : prediction_row) :
  unique_ids (wingo_predictions db) ->
  wingo_predictions db !! i = Some p ->
  pred_result p <> None ->
  same_outcome_at i p (wingo_predictions (run_calls db calls)).
Proof.
  revert db p. induction calls as [|c rest IH]; intros db p Hu Hi Hres.
  - exists p. tauto.
  - simpl.
    destruct (run_call_keeps_settled db c i p Hu Hi Hres)
      as (p' & Hi' & Hid & Hr & Hw).
    destruct (IH (run_call db c) p' (run_call_ids db c Hu) Hi')
      as (p'' & Hi'' & Hid' & Hr' & Hw').
    { now rewrite Hr. }
    exists p''. unfold run_calls in Hi''. split; [exact Hi''|].
    repeat split; congruence.
Qed.

Lemma settled_prediction_is_final_witness :
  let settled := mkPrediction 1 812 "30 SEC" "RED" (Some "GREEN") (Some false)
                   "2024-01-01 00:00:00" in
  let db := mkDatabase []
              [settled;
               mkPrediction 2 813 "30 SEC" "BIG" None None
                 "2024-01-01 00:00:30"] in
  let calls := [UpdatePredictions 812 "30 SEC" "RED";
                SavePrediction 812 "30 SEC" "GREEN" "2024-01-01 00:01:00";
                AddNewResult "30 SEC" "BIG" "RED" "BIG" "2024-01-01 00:01:30";
                UpdatePredictions 813 "30 SEC" "SMALL"] in
  unique_ids (wingo_predictions db)
  /\ same_outcome_at 0 settled (wingo_predictions (run_calls db calls)).
Proof.
  intros settled db calls.
  assert (H : unique_ids (wingo_predictions db)).
  { unfold unique_ids. simpl. apply (bool_decide_unpack _). vm_compute.
    exact I. }
  split; [exact H|].
  apply (settled_prediction_is_final db calls 0 settled H eq_refl).
  discriminate.
Defined.

(** Restricted to calls of [update_predictions], the settled row is left
    as it is, field for field. *)
Lemma update_predictions_never_rewrites (db : database)
    (calls : list (Z * string * string)) (i : nat) (p : prediction_row) :
  unique_ids (wingo_predictions db) ->
  wingo_predictions db !! i = Some p ->
  pred_result p <> None ->
  wingo_predictions
    (fold_left (fun d c => update_predictions d (fst (fst c)) (snd (fst c))
                             (snd c)) calls db) !! i = Some p.
Proof.
  revert db. induction calls as [|[[pid dur] act] rest IH];
    intros db Hu Hi Hres; [exact Hi|].
  simpl. apply IH.
  - unfold unique_ids. now rewrite update_predictions_ids.
  - now apply update_predictions_keeps_settled.
  - exact Hres.
Qed.

(** An open row selected by [update_predictions] receives the actual
    result and the win flag of the substring test. *)
Lemma settle_selected (actual_result : string)
    (selected preds : list prediction_row) (i : nat) (p : prediction_row) :
  NoDup (map pred_id selected) ->
  In (pred_id p) (map pred_id selected) ->
  (forall s, In s selected -> pred_id s = pred_id p ->
             pred_prediction s = pred_prediction p) ->
  preds !! i = Some p ->
  settle actual_result selected preds !! i
  = Some (set_outcome actual_result
            (is_win (pred_prediction p) actual_result) p).
Proof.
  unfold settle. revert preds.
  induction selected as [|s rest IH]; intros preds Hnd Hin Hsame Hi;
    [destruct Hin|].
  simpl. apply NoDup_cons in Hnd as [Hs Hnd].
  destruct (Z.eq_dec (pred_id s) (pred_id p)) as [E|Hne].
  - apply (settle_other actual_result).
    + unfold update_by_id. change (map ?f preds) with (f <$> preds).
      rewrite list_lookup_fmap, Hi. simpl.
      rewrite E, Z.eqb_refl. rewrite (Hsame s); [reflexivity|now left|exact E].
    + intros s' Hs' E'. apply Hs. simpl in E'. rewrite E, <- E'.
      apply list_elem_of_In. now apply in_map.
  - apply IH; try assumption.
    + destruct Hin as [Hin|Hin]; [contradiction | exact Hin].
    + intros s' Hs'. apply Hsame. now right.
    + apply update_by_id_other; [exact Hi | congruence].
Qed.

Lemma update_predictions_settles_open (db : database) (period_id : Z)
    (duration actual_result : string) (i : nat) (p : prediction_row) :
  unique_ids (wingo_predictions db) ->
  wingo_predictions db !! i = Some p ->
  pred_matches period_id duration p = true -> pred_result p = None ->
  wingo_predictions
    (update_predictions db period_id duration actual_result) !! i
  = Some (set_outcome actual_result
            (is_win (pred_prediction p) actual_result) p).
Proof.
  intros Hu Hi Hm Hnull. unfold update_predictions. simpl.
  set (sel := select_open _ _ _). unfold select_open in sel.
  assert (Hsub : forall s, In s sel -> In s (wingo_predictions db)).
  { intros s Hs. now apply filter_In in Hs. }
  assert (Hp : In p sel).
  { apply filter_In. split.
    - apply list_elem_of_In. eapply list_elem_of_lookup_2. exact Hi.
    - now rewrite Hm, Hnull. }
  apply (settle_selected actual_result).
  - unfold unique_ids in Hu. revert Hu. subst sel.
    generalize (wingo_predictions db). intros l.
    induction l as [|x l IHl]; intros Hnd; [constructor|].
    simpl in Hnd. apply NoDup_cons in Hnd as [Hx Hnd]. simpl.
    destruct (_ && _); [|now apply IHl].
    simpl. apply NoDup_cons. split; [|now apply IHl].
    intros Hin. apply Hx. apply list_elem_of_In in Hin.
    apply in_map_iff in Hin as (y & Ey & Hy). apply filter_In in Hy as [Hy _].
    apply list_elem_of_In. rewrite <- Ey. now apply in_map.
  - now apply in_map.
  - intros s Hs E. apply Hsub in Hs.
    apply list_elem_of_In, list_elem_of_lookup in Hs as [j Hj].
    assert (i = j) as ->; [|congruence].
    apply (NoDup_lookup _ i j (pred_id p) Hu);
      change (map pred_id (wingo_predictions db))
        with (pred_id <$> wingo_predictions db);
      rewrite list_lookup_fmap.
    + now rewrite Hi.
    + rewrite Hj. simpl. now rewrite E.
  - exact Hi.
Qed.

(** C10: in a table with distinct ids, [update_predictions] called with
    an actual result among RED, GREEN, BIG and SMALL settles an open
    prediction of the period and category whose label is among the four
    with that result and with the flag of the win test (one string occurs
    in the other), and the flag it writes says win exactly when the
    predicted label equals the actual result, and loss exactly when it
    differs. *)
Theorem update_predictions_marks_win_iff_same_label (db : database)
    (period_id : Z) (duration actual_result : string) (i : nat)
    (p : prediction_row) :
  unique_ids (wingo_predictions db) ->
  wingo_predictions db !! i = Some p ->
  pred_period_id p = period_id -> pred_duration p = duration ->
  pred_result p = None ->
  In (pred_prediction p) labels -> In actual_result labels ->
  exists p',
    wingo_predictions
      (update_predictions db period_id duration actual_result) !! i = Some p'
    /\ pred_id p' = pred_id p
    /\ pred_prediction p' = pred_prediction p
    /\ pred_result p' = Some actual_result
    /\ pred_is_win p'
       = Some (PyStr.contains (pred_prediction p) actual_result
               || PyStr.contains actual_result (pred_prediction p))
    /\ (pred_is_win p' = Some true <-> pred_prediction p = actual_result)
    /\ (pred_is_win p' = Some false <-> pred_prediction p <> actual_result).
Proof.
  intros Hu Hi Hperiod Hduration Hnull Hp Ha.
  assert (Hm : pred_matches period_id duration p = true).
  { unfold pred_matches. rewrite Hperiod, Hduration, Z.eqb_refl.
    now rewrite String.eqb_refl. }
  eexists. split.
  { now apply (update_predictions_settles_open db period_id duration
                 actual_result i p). }
  cbn [set_outcome pred_id pred_prediction pred_result pred_is_win].
  do 4 (split; [reflexivity|]).
  rewrite (is_win_on_labels _ _ Hp Ha).
  destruct (String.eqb_spec (pred_prediction p) actual_result) as [E|E];
    split; split; congruence.
Qed.

Lemma update_predictions_marks_win_iff_same_label_witness :
  let lost := mkPrediction 1 812 "30 SEC" "RED" None None
                "2024-01-01 00:00:00" in
  let db := mkDatabase []
              [lost;
               mkPrediction 2 812 "1 MIN" "GREEN" None None
                 "2024-01-01 00:00:30"] in
  unique_ids (wingo_predictions db)
  /\ exists p',
       wingo_predictions (update_predictions db 812 "30 SEC" "GREEN") !! 0%nat
       = Some p'
       /\ pred_result p' = Some "GREEN"
       /\ pred_is_win p' = Some false.
Proof.
  intros lost db.
  assert (H : unique_ids (wingo_predictions db)).
  { unfold unique_ids. simpl. apply (bool_decide_unpack _). vm_compute.
    exact I. }
  split; [exact H|].
  destruct (update_predictions_marks_win_iff_same_label db 812 "30 SEC"
              "GREEN" 0 lost H eq_refl eq_refl eq_refl eq_refl)
    as (p' & Hrow & _ & _ & Hres & _ & _ & Hloss);
    [simpl; tauto | simpl; tauto |].
  exists p'. split; [exact Hrow|]. split; [exact Hres|].
  apply Hloss. discriminate.
Defined.

(** *** The stores the program produces *)

Section Reachable.

Lemma update_by_id_keys (actual_result : string) (win : bool) (id : Z)
    (preds : list prediction_row) :
  map pred_key (update_by_id actual_result win id preds) = map pred_key preds.
Proof.
  unfold update_by_id. rewrite map_map. apply map_ext.
  intros p. now destruct (pred_id p =? id).
Qed.

Lemma update_predictions_keys (db : database) (period_id : Z)
    (duration actual_result : string) :
  map pred_key
    (wingo_predictions (update_predictions db period_id duration
                          actual_result))
  = map pred_key (wingo_predictions db).
Proof.
  unfold update_predictions. simpl.
  generalize (select_open period_id duration (wingo_predictions db)).
  generalize (wingo_predictions db).
  intros preds selected. revert preds.
  induction selected as [|s rest IH]; intros preds; [reflexivity|].
  simpl. rewrite IH. apply update_by_id_keys.
Qed.

Lemma run_call_one_row (db : database) (c : store_call) :
  one_row_per_period (wingo_predictions db) ->
  one_row_per_period (wingo_predictions (run_call db c)).
Proof.
  intros Hu. destruct c; cbn [run_call].
  - now apply save_prediction_keeps_one_row.
  - unfold one_row_per_period. now rewrite update_predictions_keys.
  - unfold add_new_result, one_row_per_period. cbn [fst].
    now rewrite update_predictions_keys.
Qed.

Lemma get_next_period_id_positive (db : database) (duration : string) :
  positive_periods (wingo_results db) -> 0 < get_next_period_id db duration.
Proof.
  intros Hpos. unfold get_next_period_id, max_period_id.
  destruct (sql_max _) as [m|] eqn:E; simpl; [|lia].
  apply sql_max_in, in_map_iff in E as (r & <- & Hr).
  apply in_results_for in Hr as [Hr _]. apply Hpos in Hr.
  destruct (Z.eqb_spec (res_period_id r) 0); lia.
Qed.

Lemma run_call_positive (db : database) (c : store_call) :
  positive_periods (wingo_results db) ->
  positive_periods (wingo_results (run_call db c)).
Proof.
  intros Hpos. destruct c; cbn [run_call].
  - unfold save_prediction.
    now destruct (List.find _ (wingo_predictions db)).
  - exact Hpos.
  - unfold add_new_result, update_predictions, insert_result. cbn.
    intros r Hr. apply in_app_or in Hr as [Hr|[<-|[]]]; [now apply Hpos|].
    simpl. now apply get_next_period_id_positive.
Qed.

Lemma seeded_invariants (now : nat -> string) (draw : nat -> bool) :
  let db := init_database None now draw in
  one_row_per_period (wingo_predictions db)
  /\ unique_ids (wingo_predictions db)
  /\ positive_periods (wingo_results db).
Proof.
  split; [|split].
  - unfold one_row_per_period. apply (bool_decide_unpack _).
    vm_compute. exact I.
  - unfold unique_ids. apply (bool_decide_unpack _). vm_compute. exact I.
  - unfold positive_periods. apply List.Forall_forall.
    vm_compute. repeat constructor.
Qed.

(** Every store the program produces has one prediction row per (period,
    category) at most, distinct prediction ids and positive period
    identifiers. *)
Lemma reachable_invariants (db : database) :
  reachable db ->
  one_row_per_period (wingo_predictions db)
  /\ unique_ids (wingo_predictions db)
  /\ positive_periods (wingo_results db).
Proof.
  intros (now & draw & calls & ->). unfold run_calls.
  generalize (seeded_invariants now draw). cbv zeta.
  generalize (init_database None now draw).
  induction calls as [|c rest IH]; intros db H; [exact H|].
  simpl. apply IH. destruct H as (H1 & H2 & H3).
  split; [now apply run_call_one_row|].
  split; [now apply run_call_ids | now apply run_call_positive].
Qed.

(** On such a store the next period identifier is one more than the
    maximum recorded for the category, whenever there is one. *)
Lemma get_next_period_id_reachable (db : database) (duration : string)
    (m : Z) :
  reachable db -> max_period_id db duration = Some m ->
  get_next_period_id db duration = m + 1.
Proof.
  intros Hr Hm. apply get_next_period_id_nonzero; [exact Hm|].
  apply reachable_invariants in Hr as (_ & _ & Hpos).
  unfold max_period_id in Hm.
  apply sql_max_in, in_map_iff in Hm as (r & <- & Hin).
  apply in_results_for in Hin as [Hin _]. apply Hpos in Hin. lia.
Qed.

End Reachable.

(** ** The registry *)

Import Utils Bot.

Section Registry.

Lemma last_n_length {A} (n : nat) (l : list A) :
  (n <= length l)%nat -> length (last_n n l) = n.
Proof. intros H. unfold last_n. rewrite length_skipn. lia. Qed.

Lemma last_n_suffix {A} (n : nat) (l : list A) :
  l = firstn (length l - n) l ++ last_n n l.
Proof. unfold last_n. now rewrite firstn_skipn. Qed.

(** Registration appends: the latest handles are the last ones. *)
Lemma register_active_message_appends (reg : gmap string (list handle))
    (duration : string) (chat_id message_id : Z) (l : list handle) :
  reg !! duration = Some l ->
  exists reg',
    register_active_message reg duration chat_id message_id = Some reg'
    /\ reg' !! duration = Some (l ++ [(chat_id, message_id)])
    /\ forall other, other <> duration -> reg' !! other = reg !! other.
Proof.
  intros H. unfold register_active_message. rewrite H.
  eexists. split; [reflexivity|]. split.
  - apply lookup_insert_eq.
  - intros other Hne. now apply lookup_insert_ne.
Qed.


(** C6: after [clear_old_messages] every category of the registry holds
    at most 20 handles; a list of more than 20 is cut down to its last 20
    entries, the most recently registered, in their order; a list of 20 or
    fewer is unchanged; and no category is added or dropped. *)
Theorem clear_old_messages_keeps_last_20 (reg : gmap string (list handle))
    (duration : string) (l : list handle) :
  reg !! duration = Some l ->
  exists kept,
    clear_old_messages reg !! duration = Some kept
    /\ (length kept <= 20)%nat
    /\ ((20 < length l)%nat ->
        length kept = 20%nat
        /\ kept = skipn (length l - 20) l
        /\ l = firstn (length l - 20) l ++ kept)
    /\ ((length l <= 20)%nat -> kept = l).
Proof.
  intros H. unfold clear_old_messages. rewrite lookup_fmap, H. simpl.
  eexists. split; [reflexivity|]. unfold max_messages.
  destruct (Nat.ltb_spec 20 (length l)) as [Hlt|Hle].
  - split; [rewrite last_n_length; lia|]. split; [|lia].
    intros _. split; [apply last_n_length; lia|].
    split; [reflexivity | apply last_n_suffix].
  - split; [exact Hle|]. split; [lia | reflexivity].
Qed.

Lemma clear_old_messages_keeps_last_20_witness :
  let l := map (fun k => (7, Z.of_nat k)) (seq 0 23) in
  let reg := <["30 SEC" := l]> active_messages in
  reg !! "30 SEC" = Some l
  /\ exists kept,
       clear_old_messages reg !! "30 SEC" = Some kept
       /\ (length kept <= 20)%nat
       /\ ((20 < length l)%nat ->
           length kept = 20%nat
           /\ kept = skipn (length l - 20) l
           /\ l = firstn (length l - 20) l ++ kept)
       /\ ((length l <= 20)%nat -> kept = l).
Proof.
  intros l reg.
  assert (H : reg !! "30 SEC" = Some l) by reflexivity.
  split; [exact H|].
  exact (clear_old_messages_keeps_last_20 reg "30 SEC" l H).
Defined.

Lemma clear_old_messages_same_keys (reg : gmap string (list handle))
    (duration : string) :
  clear_old_messages reg !! duration = None <-> reg !! duration = None.
Proof.
  unfold clear_old_messages. rewrite lookup_fmap.
  destruct (reg !! duration); simpl; split; congruence.
Qed.

End Registry.

(** ** The scheduled update *)

Section EditLoop.

Variables (bot_present : bool) (edit_fails : nat -> handle -> bool)
          (duration : string).

Lemma handle_eqb_refl (h : handle) : handle_eqb h h = true.
Proof. unfold handle_eqb. now rewrite !Z.eqb_refl. Qed.





End EditLoop.




(** C5, at a registry holding the handles (1, 10) and (1, 11) for
    "30 SEC", the edit of (1, 10) raising and no other: the failure is
    caught and (1, 10) is unregistered, but the loop ends having called the
    edit on (1, 10) only; (1, 11), still registered, is passed over,
    because the list being iterated is the one the removal shortens. *)
Theorem update_skips_handle_after_failed_edit :
  let reg := <["30 SEC" := [(1, 10); (1, 11)]]> active_messages in
  let edit_fails := fun (_ : nat) (h : handle) => handle_eqb h (1, 10) in
  exists reg',
    update_messages_for_duration true edit_fails "30 SEC" reg
    = Finished reg' [(1, 10)]
    /\ reg' !! "30 SEC" = Some [(1, 11)]
    /\ reg' !! "1 MIN" = Some [].
Proof.
  eexists. split; [vm_compute; reflexivity|]. split; reflexivity.
Qed.

(** ** The remote fetch *)

Import WebScraper.

Section RemoteFetch.

Variable format_created_time : json -> option string.
Variable int_of_str : string -> option Z.

Lemma request_params_eq (limit : Z) (duration : string) :
  request_params limit duration
  = [("id", PInt (if String.eqb duration "30SEC" then 4 else 3));
     ("count", PInt limit);
     ("language", PStr "en")].
Proof. reflexivity. Qed.

(** C7, as the code has it: every call of [get_wingo_results] sends
    exactly one GET request and takes one reply, whatever the reply is;
    the request goes to the same endpoint, with the same headers, the same
    timeout and the same [language]; its [count] is the limit asked and its
    [id] is 4 for the duration "30SEC" and 3 for any other. *)
Theorem get_wingo_results_sends_one_request (limit : Z) (duration : string)
    (w : world) :
  sent (snd (get_wingo_results format_created_time limit duration w))
  = sent w
    ++ [mkRequest API_URL
          [("id", PInt (if String.eqb duration "30SEC" then 4 else 3));
           ("count", PInt limit);
           ("language", PStr "en")]
          HEADERS 10]
  /\ pending (snd (get_wingo_results format_created_time limit duration w))
     = tl (pending w).
Proof.
  unfold get_wingo_results, requests_get.
  rewrite request_params_eq. cbn [snd sent pending].
  split; reflexivity.
Qed.

Lemma process_record_not_object (records : list json) :
  forallb is_object records = false ->
  mapM (process_record format_created_time) records = None.
Proof.
  intros H. apply mapM_None_2.
  induction records as [|record rest IH]; [discriminate H|].
  simpl in H. apply andb_false_iff in H as [H|H].
  - apply Exists_cons_hd. now destruct record.
  - apply Exists_cons_tl. now apply IH.
Qed.

Lemma read_reply_failure (reply : http_reply) :
  remote_failure format_created_time reply = true ->
  read_reply format_created_time reply = None
  \/ read_reply format_created_time reply = Some [].
Proof.
  unfold remote_failure.
  destruct (read_reply format_created_time reply) as [results|] eqn:E;
    [|now left].
  intros H. right. f_equal.
  destruct reply as [|status_code body]; [discriminate E|].
  simpl in E. destruct (status_code =? 200); simpl in H; [|congruence].
  destruct body as [[| | | | | |fields]|]; try discriminate E.
  simpl in H.
  destruct (truthy _); simpl in H; [|congruence].
  destruct (dict_get "data" fields) as [data|]; [|congruence].
  destruct (py_iter data) as [records|]; [|discriminate E].
  apply negb_true_iff in H.
  rewrite (process_record_not_object _ H) in E. discriminate E.
Qed.

(** A reply that is no failure reaches [return results]: its status is
    200, its body an object with a truthy [success] and an iterable
    [data], and every record of [data] is converted. *)
Lemma read_reply_no_failure (reply : http_reply) :
  remote_failure format_created_time reply = false ->
  exists fields data records results,
    reply = Response 200 (Some (JObj fields))
    /\ truthy (dict_get_default "success" JNull fields) = true
    /\ dict_get "data" fields = Some data
    /\ py_iter data = Some records
    /\ mapM (process_record format_created_time) records = Some results
    /\ read_reply format_created_time reply = Some results.
Proof.
  unfold remote_failure.
  destruct (read_reply format_created_time reply) as [results|] eqn:E;
    [|discriminate].
  destruct reply as [|status_code body]; [discriminate|].
  simpl in E. intros H. apply orb_false_iff in H as [Hs Hb].
  apply negb_false_iff in Hs. rewrite Hs in E.
  apply Z.eqb_eq in Hs. subst status_code.
  destruct body as [[| | | | | |fields]|]; try discriminate Hb.
  simpl in Hb. apply orb_false_iff in Hb as [Hsucc Hdata].
  apply negb_false_iff in Hsucc. rewrite Hsucc in E.
  destruct (dict_get "data" fields) as [data|] eqn:Hd; [|discriminate Hdata].
  destruct (py_iter data) as [records|] eqn:Hi; [|discriminate Hdata].
  now exists fields, data, records, results.
Qed.

(** Conversely such a reply is no failure, so the failures are exactly
    the replies that do not reach [return results]. *)
Lemma read_reply_complete (fields : list (string * json)) (data : json)
    (records : list json) (results : list web_result) :
  truthy (dict_get_default "success" JNull fields) = true ->
  dict_get "data" fields = Some data ->
  py_iter data = Some records ->
  mapM (process_record format_created_time) records = Some results ->
  remote_failure format_created_time (Response 200 (Some (JObj fields)))
  = false.
Proof.
  intros Hs Hd Hi Hm. unfold remote_failure. simpl.
  rewrite Hs, Hd, Hi, Hm. simpl.
  destruct (forallb is_object records) eqn:E; [reflexivity|].
  rewrite (process_record_not_object _ E) in Hm. discriminate Hm.
Qed.

Lemma get_wingo_results_failure (limit : Z) (duration : string) (w : world) :
  remote_failure format_created_time (next_reply w) = true ->
  fst (get_wingo_results format_created_time limit duration w) = [].
Proof.
  intros H. unfold get_wingo_results, requests_get. simpl.
  destruct (read_reply_failure _ H) as [-> | ->]; reflexivity.
Qed.

End RemoteFetch.

(** C7 as stated fails: a call for ten "1MIN" results and a call for one
    "30SEC" result, from the same state of the network, send different
    query parameters. *)
Lemma get_wingo_results_parameters_vary :
  let w := mkWorld [] [] in
  map req_params (sent (snd (get_wingo_results (fun _ => None) 10 "1MIN" w)))
  = [[("id", PInt 3); ("count", PInt 10); ("language", PStr "en")]]
  /\ map req_params
       (sent (snd (get_wingo_results (fun _ => None) 1 "30SEC" w)))
     = [[("id", PInt 4); ("count", PInt 1); ("language", PStr "en")]]
  /\ sent (snd (get_wingo_results (fun _ => None) 10 "1MIN" w))
     <> sent (snd (get_wingo_results (fun _ => None) 1 "30SEC" w)).
Proof. repeat split. discriminate. Qed.

(** ** The content generator *)

Import FixedPrediction.

Lemma random_choice_in (rnd : nat) (l : list string) :
  l <> [] -> In (random_choice rnd l) l.
Proof.
  intros Hne. unfold random_choice. apply nth_In.
  apply Nat.mod_upper_bound. destruct l; [contradiction | discriminate].
Qed.

Lemma alternate_in_options (last : string) :
  In (alternate last) prediction_options.
Proof.
  unfold alternate, prediction_options.
  destruct (str_in last _); destruct (String.eqb last _); simpl; tauto.
Qed.

Lemma alternate_differs (last : string) : alternate last <> last.
Proof.
  unfold alternate, str_in. simpl.
  destruct (String.eqb_spec last "RED") as [->|H1]; [discriminate|].
  destruct (String.eqb_spec last "GREEN") as [->|H2]; [discriminate|].
  simpl.
  destruct (String.eqb_spec last "BIG") as [->|H3]; [discriminate|].
  congruence.
Qed.

(** The faults consumed by a call are in front of those left. *)
Lemma fault_hd (faults : list bool) :
  hd false faults = true -> In true faults.
Proof. destruct faults as [|f rest]; simpl; [discriminate | tauto]. Qed.

Lemma fault_tl (faults : list bool) : incl (tl faults) faults.
Proof. destruct faults; [apply incl_refl | apply incl_tl, incl_refl]. Qed.

Lemma try_call_spec {A} (accepted : bool) (value : A) (faults : list bool) :
  incl (snd (try_call accepted value faults)) faults
  /\ match fst (try_call accepted value faults) with
     | Some v => v = value /\ accepted = true /\ hd false faults = false
     | None => accepted = false \/ hd false faults = true
     end.
Proof.
  unfold try_call. cbn [fst snd]. split; [apply fault_tl|].
  destruct (hd false faults) eqn:F; [now right|].
  destruct accepted; [tauto | now left].
Qed.

Section ContentGenerator.

Variable format_created_time : json -> option string.
Variable int_of_str : string -> option Z.

Abbreviation generate :=
  (generate_formatted_predictions format_created_time int_of_str).

(** The prediction of the fallback: the alternate of the latest local
    result, a random label when there is none. *)
Abbreviation local_prediction db duration limit rnd :=
  (match get_latest_results db duration limit with
   | last :: _ => alternate (res_result last)
   | [] => random_choice rnd prediction_options
   end).

(** The locals the fallback ends with. *)
Abbreviation local_locals db w duration limit now rnd :=
  (mkLocals (Database.get_next_period_id db duration)
     (FromStore (get_latest_results db duration limit))
     (local_prediction db duration limit rnd)
     (fst (save_prediction db (Database.get_next_period_id db duration)
             duration (local_prediction db duration limit rnd) now))
     w).

(** The locals the remote branch ends with. *)
Abbreviation remote_locals db web next duration now :=
  (mkLocals (fst next)
     (FromWeb (map (fun res => mkShown (wr_period_id res) (wr_result res)
                                 (wr_color res) (wr_timestamp res))
                 (fst web)))
     (alternate (hd "" (map wr_result (fst web))))
     (fst (save_prediction db (fst next) duration
             (alternate (hd "" (map wr_result (fst web)))) now))
     (snd next)).

(** The fallback runs to its end only when the store takes it, and then
    everything it computes comes from the store; it raises only when the
    store refuses it or fails. *)
Lemma from_local_store_spec (db : database) (w : world)
    (duration : string) (limit : Z) (now : string) (rnd : nat)
    (faults : list bool) :
  incl (snd (from_local_store db w duration limit now rnd faults)) faults
  /\ match fst (from_local_store db w duration limit now rnd faults) with
     | Some l =>
         store_takes_fallback db duration limit = true
         /\ l = local_locals db w duration limit now rnd
     | None =>
         store_takes_fallback db duration limit = false \/ In true faults
     end.
Proof.
  unfold from_local_store, try_get_next_period_id, try_get_latest_results,
    try_save_prediction, store_takes_fallback.
  destruct (try_call_spec true (Database.get_next_period_id db duration)
              faults) as [I1 S1].
  destruct (try_call true _ faults) as [[next|] f1]; cbn [fst snd] in *;
    [|split; [exact I1|];
      destruct S1 as [S1|S1]; [discriminate | right; now apply fault_hd]].
  destruct S1 as (-> & _ & _).
  destruct (try_call_spec (fits_int64 limit)
              (get_latest_results db duration limit) f1) as [I2 S2].
  destruct (try_call (fits_int64 limit) _ f1) as [[rows|] f2];
    cbn [fst snd] in *.
  2:{ split; [eapply incl_tran; eassumption|].
      destruct S2 as [->|S2]; [now left | right; now apply I1, fault_hd]. }
  destruct S2 as (-> & -> & _).
  destruct (try_call_spec
              (accepts_save db (Database.get_next_period_id db duration)
                 duration)
              (save_prediction db (Database.get_next_period_id db duration)
                 duration (local_prediction db duration limit rnd) now) f2)
    as [I3 S3].
  destruct (try_call (accepts_save _ _ _) _ f2) as [[[db' id]|] f3];
    cbn [fst snd] in *.
  - split; [eapply incl_tran; [eassumption|]; eapply incl_tran; eassumption|].
    destruct S3 as (E & -> & _). split; [reflexivity|]. now rewrite <- E.
  - split; [eapply incl_tran; [eassumption|]; eapply incl_tran; eassumption|].
    destruct S3 as [->|S3]; [now left | right].
    now apply I1, I2, fault_hd.
Qed.


(** The [try] with its handler, with the two fetches named. It ends with
    the locals of the remote branch only when the remote source gives
    results and the save under the remote next period is carried out; it
    ends with the locals of the fallback otherwise, when the [else] branch
    runs to its end or when the handler does; and it raises only when the
    store refuses the fallback or fails. *)
Lemma try_except_spec (db : database) (w : world) (duration : string)
    (limit : Z) (now : string) (rnd : nat) (faults : list bool) :
  let web := get_wingo_results format_created_time limit
               (PyStr.remove_spaces duration) w in
  let next := WebScraper.get_next_period_id format_created_time int_of_str
                duration (snd web) in
  let r := try_except format_created_time int_of_str db w duration limit
             now rnd faults in
  snd (fst r) = snd next
  /\ incl (snd r) faults
  /\ match fst (fst r) with
     | Some l =>
         (fst web <> []
          /\ accepts_save db (fst next) duration = true
          /\ hd false faults = false
          /\ l = remote_locals db web next duration now)
         \/ (store_takes_fallback db duration limit = true
             /\ (fst web = []
                 \/ accepts_save db (fst next) duration = false
                 \/ hd false faults = true)
             /\ l = local_locals db (snd next) duration limit now rnd)
     | None =>
         store_takes_fallback db duration limit = false \/ In true faults
     end.
Proof.
  cbv zeta. unfold try_except, try_body.
  destruct (get_wingo_results _ limit _ w) as [web_results w1].
  cbn [fst snd].
  destruct (WebScraper.get_next_period_id _ _ duration w1) as [next w2].
  cbn [fst snd].
  assert (Hhandler : forall f1,
    incl f1 faults ->
    (web_results = []
     \/ accepts_save db next duration = false \/ hd false faults = true) ->
    let r := (let '(at_line_98, f2) :=
                from_local_store db w2 duration limit now rnd f1 in
              (at_line_98, w2, f2)) in
    snd (fst r) = w2
    /\ incl (snd r) faults
    /\ match fst (fst r) with
       | Some l =>
           (web_results <> []
            /\ accepts_save db next duration = true
            /\ hd false faults = false
            /\ l = mkLocals next
                     (FromWeb (map (fun res => mkShown (wr_period_id res)
                                                 (wr_result res) (wr_color res)
                                                 (wr_timestamp res))
                                 web_results))
                     (alternate (hd "" (map wr_result web_results)))
                     (fst (save_prediction db next duration
                             (alternate (hd "" (map wr_result web_results)))
                             now))
                     w2)
           \/ (store_takes_fallback db duration limit = true
               /\ (web_results = []
                   \/ accepts_save db next duration = false
                   \/ hd false faults = true)
               /\ l = local_locals db w2 duration limit now rnd)
       | None =>
           store_takes_fallback db duration limit = false \/ In true faults
       end).
  { intros f1 Hincl Hwhy. cbv zeta.
    destruct (from_local_store_spec db w2 duration limit now rnd f1)
      as [I S].
    destruct (from_local_store db w2 duration limit now rnd f1)
      as [[l|] f2]; cbn [fst snd] in *.
    - split; [reflexivity|]. split; [eapply incl_tran; eassumption|].
      right. destruct S as [S ->]. now split.
    - split; [reflexivity|]. split; [eapply incl_tran; eassumption|].
      destruct S as [S|S]; [now left | right; now apply Hincl]. }
  destruct web_results as [|first rest].
  - destruct (from_local_store_spec db w2 duration limit now rnd faults)
      as [I S].
    destruct (from_local_store db w2 duration limit now rnd faults)
      as [[l|] f1]; cbn [fst snd] in *.
    + split; [reflexivity|]. split; [exact I|].
      right. destruct S as [S ->]. split; [exact S|]. split; [now left|].
      reflexivity.
    + apply Hhandler; [exact I | now left].
  - unfold try_save_prediction.
    destruct (try_call_spec (accepts_save db next duration)
                (save_prediction db next duration
                   (alternate (wr_result first)) now) faults) as [I S].
    destruct (try_call (accepts_save db next duration) _ faults)
      as [[[db' id]|] f1]; cbn [fst snd] in *.
    + split; [reflexivity|]. split; [exact I|].
      left. destruct S as (E & Hacc & Hfault).
      split; [discriminate|]. split; [exact Hacc|]. split; [exact Hfault|].
      cbn [map hd]. now rewrite <- E.
    + apply Hhandler; [exact I|].
      destruct S as [S|S]; [right; now left | right; now right].
Qed.

(** A call, with the two fetches named: the text is laid out from the
    locals and the past predictions of the store left; the locals are
    those of the remote branch or of the fallback; an exception leaves
    the call only when the store refuses the fallback or fails, with the
    store as it was or as the save left it. *)
Lemma generate_spec (db : database) (w : world) (duration : string)
    (limit : Z) (now : string) (rnd : nat) (current_second : Z)
    (faults : list bool) :
  let web := get_wingo_results format_created_time limit
               (PyStr.remove_spaces duration) w in
  let next := WebScraper.get_next_period_id format_created_time int_of_str
                duration (snd web) in
  match generate db w duration limit now rnd current_second faults with
  | Returns (text, l) =>
      text = format_output current_second duration (next_period l)
               (next_prediction l) (get_predictions (db_after l) duration 10)
      /\ ((fst web <> []
           /\ accepts_save db (fst next) duration = true
           /\ hd false faults = false
           /\ l = remote_locals db web next duration now)
          \/ (store_takes_fallback db duration limit = true
              /\ (fst web = []
                  \/ accepts_save db (fst next) duration = false
                  \/ hd false faults = true)
              /\ l = local_locals db (snd next) duration limit now rnd))
  | Raises db' w' =>
      w' = snd next
      /\ (store_takes_fallback db duration limit = false \/ In true faults)
      /\ (db' = db
          \/ (fst web <> []
              /\ db' = db_after (remote_locals db web next duration now))
          \/ db' = db_after (local_locals db (snd next) duration limit now
                               rnd))
  end.
Proof.
  cbv zeta. unfold generate_formatted_predictions.
  pose proof (try_except_spec db w duration limit now rnd faults) as Hspec.
  cbv zeta in Hspec. destruct Hspec as (Hw & Hincl & Hl).
  destruct (try_except _ _ db w duration limit now rnd faults)
    as [[[l|] w2] f1]; cbn [fst snd] in *; subst w2.
  2:{ split; [reflexivity|]. split; [exact Hl | now left]. }
  unfold try_get_predictions.
  destruct (try_call_spec (fits_int64 10)
              (get_predictions (db_after l) duration 10) f1) as [_ S].
  destruct (try_call (fits_int64 10) _ f1) as [[past|] f2];
    cbn [fst snd] in *.
  - destruct S as (-> & _ & _). split; [reflexivity | exact Hl].
  - split; [reflexivity|]. split.
    + right. destruct S as [S|S]; [discriminate S|].
      now apply Hincl, fault_hd.
    + right. destruct Hl as [(Hweb & _ & _ & ->)|(_ & _ & ->)];
        [left; now split | now right].
Qed.


Lemma alternate_opposite (label other : string) :
  opposite label = Some other -> alternate label = other.
Proof.
  unfold opposite, alternate, str_in. simpl.
  destruct (String.eqb_spec label "RED") as [->|_]; [now intros [= <-]|].
  destruct (String.eqb_spec label "GREEN") as [->|_]; [now intros [= <-]|].
  destruct (String.eqb_spec label "BIG") as [->|_]; [now intros [= <-]|].
  destruct (String.eqb_spec label "SMALL") as [->|_]; [now intros [= <-]|].
  discriminate.
Qed.

(** A call that returns predicts one of the four labels, the alternate of
    the first of the results it holds when it holds some; a call raises
    only when the store refuses the fallback or fails. *)
Lemma generate_alternates (db : database) (w : world)
    (duration : string) (limit : Z) (now : string) (rnd : nat)
    (current_second : Z) (faults : list bool) :
  match generate db w duration limit now rnd current_second faults with
  | Returns (_, l) =>
      In (next_prediction l) prediction_options
      /\ forall last,
           first_result (results l) = Some last ->
           next_prediction l = alternate last
  | Raises _ _ =>
      store_takes_fallback db duration limit = false \/ In true faults
  end.
Proof.
  pose proof (generate_spec db w duration limit now rnd current_second
                faults) as Hgen.
  cbv zeta in Hgen.
  destruct (generate db w duration limit now rnd current_second faults)
    as [[text l]|db' w']; [|now destruct Hgen as (_ & Hwhy & _)].
  destruct Hgen as [_ [(Hweb & _ & _ & ->)|(_ & _ & ->)]];
    cbn [next_prediction results first_result].
  - split; [apply alternate_in_options|].
    destruct (fst (get_wingo_results _ limit _ w)) as [|first rest];
      [now contradiction Hweb|].
    cbn [map hd sh_result]. now intros last [= <-].
  - destruct (get_latest_results db duration limit) as [|row rows].
    + split; [now apply random_choice_in | discriminate].
    + split; [apply alternate_in_options | now intros last [= <-]].
Qed.

(** The call returns whenever the store takes the fallback and does not
    fail. *)
Lemma generate_returns (db : database) (w : world)
    (duration : string) (limit : Z) (now : string) (rnd : nat)
    (current_second : Z) (faults : list bool) :
  store_takes_fallback db duration limit = true -> ~ In true faults ->
  exists text l,
    generate db w duration limit now rnd current_second faults
    = Returns (text, l).
Proof.
  intros H Hnone.
  pose proof (generate_alternates db w duration limit now rnd current_second
                faults) as Hgen.
  destruct (generate db w duration limit now rnd current_second faults)
    as [[text l]|db' w']; [now exists text, l|].
  destruct Hgen; [congruence | contradiction].
Qed.

(** C8, for the generator the bot runs: whenever the results held by a
    call of [fixed_prediction.generate_formatted_predictions] that returns
    are not empty and the result of the first of them, the most recent
    outcome it knows, is one of the four labels, the prediction for the
    next period is the opposite label: GREEN after RED, RED after GREEN,
    SMALL after BIG, BIG after SMALL. The results held are the remote
    results when the remote source gives some and the prediction is saved
    under the remote next period, and the latest local results otherwise:
    when the remote source gives none, and when that save raises and the
    handler runs. An exception leaves the call only when the store refuses
    the fallback or fails. *)
Theorem fixed_prediction_picks_opposite (db : database) (w : world)
    (duration : string) (limit : Z) (now : string) (rnd : nat)
    (current_second : Z) (faults : list bool) (last other : string) :
  opposite last = Some other ->
  let web := get_wingo_results format_created_time limit
               (PyStr.remove_spaces duration) w in
  let next := WebScraper.get_next_period_id format_created_time int_of_str
                duration (snd web) in
  match generate db w duration limit now rnd current_second faults with
  | Returns (_, l) =>
      (first_result (results l) = Some last -> next_prediction l = other)
      /\ results l
         = match fst web with
           | _ :: _ =>
               if accepts_save db (fst next) duration
                  && negb (hd false faults)
               then FromWeb (map (fun res =>
                                    mkShown (wr_period_id res) (wr_result res)
                                      (wr_color res) (wr_timestamp res))
                               (fst web))
               else FromStore (get_latest_results db duration limit)
           | [] => FromStore (get_latest_results db duration limit)
           end
  | Raises _ _ =>
      store_takes_fallback db duration limit = false \/ In true faults
  end.
Proof.
  intros Hopp. cbv zeta.
  pose proof (generate_alternates db w duration limit now rnd current_second
                faults) as Halt.
  pose proof (generate_spec db w duration limit now rnd current_second
                faults) as Hgen.
  cbv zeta in Hgen.
  destruct (generate db w duration limit now rnd current_second faults)
    as [[text l]|db' w']; [|exact Halt].
  split.
  - intros Hlast. destruct Halt as [_ Halt]. rewrite (Halt last Hlast).
    now apply alternate_opposite.
  - destruct Hgen as [_ [(Hweb & Hacc & Hfault & ->)|(_ & Hwhy & ->)]];
      cbn [results].
    + destruct (fst (get_wingo_results _ limit _ w)) as [|first rest];
        [now contradiction Hweb|].
      now rewrite Hacc, Hfault.
    + destruct (fst (get_wingo_results _ limit _ w)) as [|first rest];
        [reflexivity|].
      destruct Hwhy as [Hwhy|[->| ->]];
        [discriminate Hwhy | reflexivity | now rewrite andb_false_r].
Qed.

End ContentGenerator.


Lemma fixed_prediction_picks_opposite_witness :
  let reply :=
    Response 200
      (Some (JObj [("success", JBool true);
                   ("data",
                    JArr [JObj [("issueNumber", JInt 20240101001);
                                ("colorType", JInt 1);
                                ("createdTime", JInt 1704067200000)]])])) in
  let w := mkWorld [] [reply; reply] in
  let db := mkDatabase [] [] in
  let fmt := fun _ : json => Some "2024-01-01 00:00:00" in
  opposite "RED" = Some "GREEN"
  /\ exists text l,
       generate_formatted_predictions fmt (fun _ => None) db w "1 MIN" 10
         "2024-01-01 00:00:05" 0 7 [] = Returns (text, l)
       /\ first_result (results l) = Some "RED"
       /\ next_prediction l = "GREEN".
Proof.
  intros reply w db fmt.
  assert (H : opposite "RED" = Some "GREEN") by reflexivity.
  split; [exact H|].
  pose proof (fixed_prediction_picks_opposite fmt (fun _ => None) db w
                "1 MIN" 10 "2024-01-01 00:00:05" 0%nat 7 [] "RED" "GREEN" H)
    as Hgen.
  cbv zeta in Hgen.
  destruct (generate_formatted_predictions fmt (fun _ => None) db w "1 MIN"
              10 "2024-01-01 00:00:05" 0 7 []) as [[text l]|db' w'].
  - destruct Hgen as [Hopp Hresults].
    assert (Hfirst : first_result (results l) = Some "RED")
      by (rewrite Hresults; reflexivity).
    exists text, l. split; [reflexivity|].
    split; [exact Hfirst | exact (Hopp Hfirst)].
  - destruct Hgen as [Hrefused|[]]. discriminate Hrefused.
Defined.

(** The handler at work. The remote source gives a RED result and the
    latest local result is GREEN. When the save under the remote next
    period raises, because that period is 2^63 (after the remote period
    2^63 - 1), because the table of predictions has no rowid left for a
    new row, or because the file fails at that call, the exception is
    caught and the prediction is made from the local store: RED, for the
    store's next period 811. Without that the prediction is GREEN, for the
    remote next period. When the handler's save raises too, the exception
    leaves the call. *)
Lemma generate_handler_predicts_from_store :
  let reply := fun issue_number =>
    Response 200
      (Some (JObj [("success", JBool true);
                   ("data",
                    JArr [JObj [("issueNumber", JInt issue_number);
                                ("colorType", JInt 1);
                                ("createdTime", JInt 1704067200000)]])])) in
  let w := fun issue_number =>
    mkWorld [] [reply issue_number; reply issue_number] in
  let outcomes := [mkResult 1 810 "1 MIN" "GREEN" "GREEN" "SMALL"
                     "2024-01-01 00:00:00"] in
  let db := mkDatabase outcomes [] in
  let db_full := mkDatabase outcomes
                   [mkPrediction (2 ^ 63 - 1) 811 "1 MIN" "BIG" None None
                      "2024-01-01 00:00:01"] in
  let run := fun store issue_number faults =>
    generate_formatted_predictions (fun _ => Some "2024-01-01 00:00:00")
      (fun _ => None) store (w issue_number) "1 MIN" 10
      "2024-01-01 00:00:05" 0 7 faults in
  let shown := fun o =>
    match o with
    | Returns (_, l) =>
        Some (next_period l, next_prediction l, first_result (results l))
    | Raises _ _ => None
    end in
  shown (run db 5000 []) = Some (5001, "GREEN", Some "RED")
  /\ shown (run db (2 ^ 63 - 1) []) = Some (811, "RED", Some "GREEN")
  /\ shown (run db_full 5000 []) = Some (811, "RED", Some "GREEN")
  /\ shown (run db 5000 [true]) = Some (811, "RED", Some "GREEN")
  /\ shown (run db 5000 [true; false; false; true]) = None.
Proof. cbv zeta. repeat split; vm_compute; reflexivity. Qed.

(** C8 as stated fails for [prediction_logic.generate_prediction]: with
    two RED outcomes recorded for "1 MIN" the most recent result is RED,
    whose opposite is GREEN, and the prediction generated is RED, both when
    [should_win()] says win (the colour streak is followed) and when it
    says lose and [random.choice] draws RED. *)
Lemma generate_prediction_repeats_last_result :
  let last := mkResult 2 802 "1 MIN" "RED" "RED" "BIG" "2024-01-01 00:01:00" in
  let db := mkDatabase
              [mkResult 1 801 "1 MIN" "RED" "RED" "BIG" "2024-01-01 00:00:00";
               last]
              [] in
  hd_error (get_latest_results db "1 MIN" 10) = Some last
  /\ opposite (res_result last) = Some "GREEN"
  /\ PredictionLogic.generate_prediction db "1 MIN" true 0
       "2024-01-01 00:01:05"
     = (mkDatabase (wingo_results db)
          [mkPrediction 1 803 "1 MIN" "RED" None None "2024-01-01 00:01:05"],
        (803, "RED"))
  /\ snd (snd (PredictionLogic.generate_prediction db "1 MIN" true 0
                 "2024-01-01 00:01:05")) <> "GREEN"
  /\ snd (snd (PredictionLogic.generate_prediction db "1 MIN" false 0
                 "2024-01-01 00:01:05")) = "RED".
Proof. repeat split. discriminate. Qed.

(** * Further properties *)

Import MoreProps.

(** ** Reading the outcomes *)

Section LatestResults.

Context {A : Type} (key : A -> Z).

Lemma insert_desc_perm (x : A) (l : list A) :
  insert_desc key x l ≡ₚ x :: l.
Proof.
  induction l as [|y l IH]; simpl; [reflexivity|].
  destruct (key y <=? key x); [reflexivity|].
  rewrite IH. apply Permutation_swap.
Qed.

Lemma order_by_desc_perm (l : list A) : order_by_desc key l ≡ₚ l.
Proof.
  unfold order_by_desc. induction l as [|x l IH]; simpl; [reflexivity|].
  rewrite insert_desc_perm. now rewrite IH.
Qed.

Lemma insert_desc_sorted (x : A) (l : list A) :
  StronglySorted (fun a b => key b <= key a) l ->
  StronglySorted (fun a b => key b <= key a) (insert_desc key x l).
Proof.
  induction l as [|y l IH]; intros Hs; simpl.
  - constructor; [constructor | constructor].
  - apply StronglySorted_inv in Hs as [Hs Hy].
    destruct (Z.leb_spec (key y) (key x)) as [Hle|Hgt].
    + constructor; [constructor; assumption|].
      constructor; [exact Hle|].
      eapply List.Forall_impl; [|exact Hy]. simpl. intros z Hz. lia.
    + constructor; [now apply IH|].
      rewrite insert_desc_perm. constructor; [lia | exact Hy].
Qed.

Lemma order_by_desc_sorted (l : list A) :
  StronglySorted (fun a b => key b <= key a) (order_by_desc key l).
Proof.
  unfold order_by_desc. induction l as [|x l IH]; simpl; [constructor|].
  now apply insert_desc_sorted.
Qed.

End LatestResults.

Lemma sql_limit_split {A} (limit : Z) (l : list A) :
  exists rest, l = sql_limit limit l ++ rest
               /\ (limit < 0 -> rest = [])
               /\ (0 <= limit ->
                   length (sql_limit limit l)
                   = Nat.min (Z.to_nat limit) (length l)).
Proof.
  unfold sql_limit. destruct (Z.ltb_spec limit 0) as [Hneg|Hpos].
  - exists []. rewrite app_nil_r. split; [reflexivity|]. split; [easy|lia].
  - exists (skipn (Z.to_nat limit) l). rewrite firstn_skipn.
    split; [reflexivity|]. split; [lia|]. intros _. apply length_firstn.
Qed.

Lemma strongly_sorted_prefix {A} (R : A -> A -> Prop) (l1 l2 : list A) :
  StronglySorted R (l1 ++ l2) -> StronglySorted R l1.
Proof.
  induction l1 as [|x l1 IH]; simpl; intros H; [constructor|].
  apply StronglySorted_inv in H as [H Hx]. constructor; [now apply IH|].
  now apply Forall_app in Hx as [Hx _].
Qed.

(** X1: [get_latest_results] returns rows of the store, all of the
    duration asked, in descending order of period identifier; together
    with the rows the limit cuts off they are exactly the store's rows of
    that duration; a non-negative limit bounds their number and a negative
    one cuts nothing off. *)
Theorem get_latest_results_sorted_selection (db : database)
    (duration : string) (limit : Z) :
  let rows := get_latest_results db duration limit in
  (forall r, In r rows -> In r (wingo_results db) /\ res_duration r = duration)
  /\ descending rows
  /\ (exists cut, rows ++ cut ≡ₚ results_for duration (wingo_results db)
                  /\ (limit < 0 -> cut = []))
  /\ (0 <= limit ->
      length rows
      = Nat.min (Z.to_nat limit)
          (length (results_for duration (wingo_results db)))).
Proof.
  intros rows. subst rows. unfold get_latest_results.
  set (sorted := order_by_desc res_period_id
                   (results_for duration (wingo_results db))).
  destruct (sql_limit_split limit sorted) as (cut & Hsplit & Hneg & Hlen).
  assert (Hperm : sorted ≡ₚ results_for duration (wingo_results db))
    by apply order_by_desc_perm.
  split; [|split; [|split]].
  - intros r Hr. apply in_results_for.
    apply list_elem_of_In. rewrite <- Hperm, Hsplit.
    apply elem_of_app. left. now apply list_elem_of_In.
  - unfold descending. apply (strongly_sorted_prefix _ _ cut).
    rewrite <- Hsplit. apply order_by_desc_sorted.
  - exists cut. split; [now rewrite <- Hsplit | exact Hneg].
  - intros Hpos. rewrite (Hlen Hpos). f_equal.
    now apply Permutation_length.
Qed.

Lemma sql_max_unique (xs : list Z) (m : Z) :
  In m xs -> (forall x, In x xs -> x <= m) -> sql_max xs = Some m.
Proof.
  intros Hin Hup. destruct (sql_max xs) as [m'|] eqn:E.
  - pose proof (sql_max_in _ _ E) as Hin'.
    pose proof (sql_max_upper _ _ E m Hin) as Hle.
    apply Hup in Hin'. f_equal. lia.
  - apply sql_max_none in E. subst xs. destruct Hin.
Qed.

Lemma sql_limit_head {A} (limit : Z) (l : list A) :
  limit <> 0 ->
  match l with
  | [] => sql_limit limit l = []
  | x :: rest => exists rest', sql_limit limit l = x :: rest'
  end.
Proof.
  intros Hne. unfold sql_limit. destruct l as [|x rest].
  - destruct (limit <? 0); [reflexivity | apply firstn_nil].
  - destruct (Z.ltb_spec limit 0); [now exists rest|].
    destruct (Z.to_nat limit) as [|n] eqn:E; [lia|].
    simpl. now eexists.
Qed.

(** The first row returned is a row of the duration with the largest
    period identifier. *)
Lemma latest_head_maximal (db : database) (duration : string) (limit : Z)
    (r : result_row) (rest : list result_row) :
  limit <> 0 ->
  get_latest_results db duration limit = r :: rest ->
  In r (results_for duration (wingo_results db))
  /\ forall x, In x (results_for duration (wingo_results db)) ->
               res_period_id x <= res_period_id r.
Proof.
  intros Hne H. unfold get_latest_results in H.
  pose proof (order_by_desc_perm res_period_id
                (results_for duration (wingo_results db))) as Hperm.
  pose proof (order_by_desc_sorted res_period_id
                (results_for duration (wingo_results db))) as Hsorted.
  pose proof (sql_limit_head limit
                (order_by_desc res_period_id
                   (results_for duration (wingo_results db))) Hne) as Hhead.
  destruct (order_by_desc res_period_id _) as [|y sorted] eqn:E.
  - rewrite Hhead in H. discriminate H.
  - destruct Hhead as [rest' Hhead]. rewrite Hhead in H.
    injection H as -> _.
    apply StronglySorted_inv in Hsorted as [_ Hall].
    split.
    + apply list_elem_of_In. rewrite <- Hperm. apply list_elem_of_here.
    + intros x Hx. apply list_elem_of_In in Hx. rewrite <- Hperm in Hx.
      apply elem_of_cons in Hx as [->|Hx]; [lia|].
      rewrite List.Forall_forall in Hall. apply Hall.
      now apply list_elem_of_In.
Qed.

Lemma latest_empty_iff (db : database) (duration : string) (limit : Z) :
  limit <> 0 ->
  (get_latest_results db duration limit = []
   <-> results_for duration (wingo_results db) = []).
Proof.
  intros Hne. unfold get_latest_results.
  pose proof (order_by_desc_perm res_period_id
                (results_for duration (wingo_results db))) as Hperm.
  pose proof (sql_limit_head limit
                (order_by_desc res_period_id
                   (results_for duration (wingo_results db))) Hne) as Hhead.
  destruct (order_by_desc res_period_id _) as [|y sorted] eqn:E.
  - split; [|intros _; exact Hhead].
    intros _. now apply Permutation_nil_l in Hperm.
  - destruct Hhead as [rest' ->]. split; [discriminate|].
    intros Hnil. rewrite Hnil in Hperm.
    now apply Permutation_nil_r in Hperm.
Qed.

(** X2: with a limit other than 0, [get_latest_results] is empty exactly
    when the store has no outcome of the duration, and otherwise its first
    row carries the largest period identifier recorded for the duration,
    the one [get_next_period_id] adds 1 to (unless it is 0). *)
Theorem get_latest_results_first_is_maximum (db : database)
    (duration : string) (limit : Z) :
  limit <> 0 ->
  (get_latest_results db duration limit = []
   <-> results_for duration (wingo_results db) = [])
  /\ forall r rest,
       get_latest_results db duration limit = r :: rest ->
       max_period_id db duration = Some (res_period_id r)
       /\ (res_period_id r <> 0 ->
           Database.get_next_period_id db duration = res_period_id r + 1).
Proof.
  intros Hne. split; [now apply latest_empty_iff|].
  intros r rest H.
  destruct (latest_head_maximal db duration limit r rest Hne H) as [Hin Hmax].
  assert (E : max_period_id db duration = Some (res_period_id r)).
  { unfold max_period_id. apply sql_max_unique.
    - now apply in_map.
    - intros x Hx. apply in_map_iff in Hx as (y & <- & Hy). now apply Hmax. }
  split; [exact E|]. intros Hnz. now apply get_next_period_id_nonzero.
Qed.

Lemma get_latest_results_first_is_maximum_witness :
  let db := mkDatabase
              [mkResult 1 811 "30 SEC" "RED" "RED" "SMALL"
                 "2024-01-01 00:00:00";
               mkResult 2 812 "30 SEC" "GREEN" "GREEN" "BIG"
                 "2024-01-01 00:00:30";
               mkResult 3 810 "1 MIN" "GREEN" "GREEN" "SMALL"
                 "2024-01-01 00:01:00"]
              [] in
  10 <> 0
  /\ max_period_id db "30 SEC" = Some 812
  /\ Database.get_next_period_id db "30 SEC" = 813.
Proof.
  intros db. assert (H : 10 <> 0) by discriminate. split; [exact H|].
  destruct (get_latest_results_first_is_maximum db "30 SEC" 10 H)
    as [_ Hhead].
  destruct (Hhead _ _ eq_refl) as [Hmax Hnext].
  split; [exact Hmax | apply Hnext; discriminate].
Defined.

(** X3: after [add_new_result], reading the latest results of the same
    duration with a limit other than 0 gives the outcome just recorded
    first. *)
Theorem add_new_result_is_latest (db : database)
    (duration result color size now : string) (limit : Z) :
  limit <> 0 ->
  exists rest,
    get_latest_results
      (fst (add_new_result db duration result color size now))
      duration limit
    = mkResult (next_rowid (map res_id (wingo_results db)))
        (Database.get_next_period_id db duration) duration result color size now
      :: rest.
Proof.
  intros Hne.
  set (new := mkResult _ _ duration result color size now).
  set (db' := fst (add_new_result db duration result color size now)).
  assert (Hres : wingo_results db' = wingo_results db ++ [new])
    by reflexivity.
  assert (Hnew : In new (results_for duration (wingo_results db'))).
  { apply in_results_for. rewrite Hres. split; [|reflexivity].
    apply in_or_app. right. now left. }
  destruct (get_latest_results db' duration limit) as [|r rest] eqn:E.
  - apply (latest_empty_iff db' duration limit Hne) in E.
    rewrite E in Hnew. destruct Hnew.
  - exists rest. f_equal.
    destruct (latest_head_maximal db' duration limit r rest Hne E)
      as [Hin Hmax].
    specialize (Hmax new Hnew).
    apply in_results_for in Hin as [Hin Hd]. rewrite Hres in Hin.
    apply in_app_or in Hin as [Hold|[<-|[]]]; [|reflexivity].
    pose proof (get_next_period_id_above db duration r Hold Hd) as Hlt.
    simpl in Hmax. lia.
Qed.

Lemma add_new_result_is_latest_witness :
  let db := mkDatabase
              [mkResult 1 812 "30 SEC" "GREEN" "GREEN" "BIG"
                 "2024-01-01 00:00:30"]
              [] in
  1 <> 0
  /\ exists rest,
       get_latest_results
         (fst (add_new_result db "30 SEC" "BIG" "RED" "BIG"
                 "2024-01-01 00:01:00")) "30 SEC" 1
       = mkResult 2 813 "30 SEC" "BIG" "RED" "BIG" "2024-01-01 00:01:00"
         :: rest.
Proof.
  intros db. assert (H : 1 <> 0) by discriminate. split; [exact H|].
  exact (add_new_result_is_latest db "30 SEC" "BIG" "RED" "BIG"
           "2024-01-01 00:01:00" 1 H).
Defined.

(** ** Writing and settling predictions *)

Lemma find_map_same {A} (f : A -> bool) (g : A -> A) (l : list A) :
  (forall x, f (g x) = f x) ->
  List.find f (map g l) = option_map g (List.find f l).
Proof.
  intros Hfg. induction l as [|x l IH]; simpl; [reflexivity|].
  rewrite Hfg. now destruct (f x).
Qed.

Lemma find_app_none {A} (f : A -> bool) (l : list A) (x : A) :
  List.find f l = None -> f x = true -> List.find f (l ++ [x]) = Some x.
Proof.
  intros Hnone Hx. induction l as [|y l IH]; simpl in *; [now rewrite Hx|].
  destruct (f y); [discriminate | now apply IH].
Qed.

Lemma rewrite_row_matches (period_id : Z) (duration prediction now : string)
    (p : prediction_row) :
  pred_matches period_id duration
    (rewrite_row_of period_id duration prediction now p)
  = pred_matches period_id duration p.
Proof.
  unfold rewrite_row_of.
  now destruct (pred_matches period_id duration p) eqn:E.
Qed.

Lemma pred_matches_new (period_id : Z) (duration prediction now : string)
    (id : Z) (result : option string) (win : option bool) :
  pred_matches period_id duration
    (mkPrediction id period_id duration prediction result win now) = true.
Proof.
  unfold pred_matches. simpl. now rewrite Z.eqb_refl, String.eqb_refl.
Qed.

(** X4: after [save_prediction], every row of the pair carries the
    prediction and timestamp just saved and the id returned names one of
    them; rows of other pairs are where and what they were; the table has
    grown by one row at most; and saving again for the same pair returns
    the same id without adding a row. *)
Theorem save_prediction_last_write_wins (db : database) (period_id : Z)
    (duration prediction now prediction2 now2 : string) :
  let db' := fst (save_prediction db period_id duration prediction now) in
  let id := snd (save_prediction db period_id duration prediction now) in
  let again := save_prediction db' period_id duration prediction2 now2 in
  (forall p, In p (wingo_predictions db') ->
             pred_matches period_id duration p = true ->
             pred_prediction p = prediction /\ pred_timestamp p = now)
  /\ (exists p, In p (wingo_predictions db')
                /\ pred_matches period_id duration p = true
                /\ pred_id p = id)
  /\ (forall i p, wingo_predictions db !! i = Some p ->
                  pred_matches period_id duration p = false ->
                  wingo_predictions db' !! i = Some p)
  /\ (length (wingo_predictions db) <= length (wingo_predictions db')
      <= S (length (wingo_predictions db)))%nat
  /\ snd again = id
  /\ length (wingo_predictions (fst again))
     = length (wingo_predictions db').
Proof.
  cbv zeta.
  destruct (save_prediction db period_id duration prediction now)
    as [db' id] eqn:E.
  cbn [fst snd]. unfold save_prediction in E.
  destruct (List.find _ (wingo_predictions db)) as [existing|] eqn:Hf;
    injection E as <- <-; cbn [wingo_predictions wingo_results].
  - change (fun p => if pred_matches period_id duration p
                     then set_prediction prediction now p else p)
      with (rewrite_row_of period_id duration prediction now).
    pose proof (find_some _ _ Hf) as [Hin Hm].
    split; [|split; [|split; [|split; [|split]]]].
    + intros p Hp Hpm. apply in_map_iff in Hp as (q & <- & Hq).
      rewrite rewrite_row_matches in Hpm. unfold rewrite_row_of.
      now rewrite Hpm.
    + exists (rewrite_row_of period_id duration prediction now existing).
      split; [now apply in_map|]. rewrite rewrite_row_matches.
      split; [exact Hm|]. unfold rewrite_row_of. now rewrite Hm.
    + intros i p Hi Hpm. change (map ?f ?l) with (f <$> l).
      rewrite list_lookup_fmap, Hi. simpl. unfold rewrite_row_of.
      now rewrite Hpm.
    + rewrite length_map. lia.
    + unfold save_prediction. cbn [wingo_predictions].
      rewrite find_map_same by apply rewrite_row_matches.
      rewrite Hf. simpl. unfold rewrite_row_of. now rewrite Hm.
    + unfold save_prediction. cbn [wingo_predictions].
      rewrite find_map_same by apply rewrite_row_matches.
      rewrite Hf. simpl. now rewrite !length_map.
  - set (new := mkPrediction _ period_id duration prediction None None now).
    assert (Hnew : pred_matches period_id duration new = true)
      by apply pred_matches_new.
    split; [|split; [|split; [|split; [|split]]]].
    + intros p Hp Hpm. apply in_app_or in Hp as [Hp|[<-|[]]].
      * apply (find_none _ _ Hf) in Hp. congruence.
      * split; reflexivity.
    + exists new. split; [apply in_or_app; right; now left|].
      split; [exact Hnew | reflexivity].
    + intros i p Hi _. apply lookup_app_l_Some. exact Hi.
    + rewrite length_app. simpl. lia.
    + unfold save_prediction. cbn [wingo_predictions].
      now rewrite (find_app_none _ _ new Hf Hnew).
    + unfold save_prediction. cbn [wingo_predictions].
      rewrite (find_app_none _ _ new Hf Hnew). simpl. now rewrite length_map.
Qed.

Lemma unselected_ids_differ (period_id : Z) (duration : string)
    (preds : list prediction_row) (i : nat) (p s : prediction_row) :
  unique_ids preds -> preds !! i = Some p ->
  pred_matches period_id duration p && is_null (pred_result p) = false ->
  In s (select_open period_id duration preds) ->
  pred_id s <> pred_id p.
Proof.
  intros Hu Hi Hp Hs E.
  apply filter_In in Hs as [Hin Hsel].
  apply list_elem_of_In, list_elem_of_lookup in Hin as [j Hj].
  assert (i = j) as ->.
  { apply (NoDup_lookup _ i j (pred_id p) Hu);
      change (map pred_id preds) with (pred_id <$> preds);
      rewrite list_lookup_fmap.
    - now rewrite Hi.
    - rewrite Hj. simpl. now rewrite E. }
  congruence.
Qed.

Lemma update_predictions_row (db : database) (period_id : Z)
    (duration actual_result : string) (i : nat) (p : prediction_row) :
  unique_ids (wingo_predictions db) ->
  wingo_predictions db !! i = Some p ->
  wingo_predictions
    (update_predictions db period_id duration actual_result) !! i
  = Some (if pred_matches period_id duration p && is_null (pred_result p)
          then set_outcome actual_result
                 (is_win (pred_prediction p) actual_result) p
          else p).
Proof.
  intros Hu Hi.
  destruct (pred_matches period_id duration p && is_null (pred_result p))
    eqn:Hsel.
  - apply andb_true_iff in Hsel as [Hm Hnull].
    apply update_predictions_settles_open; try assumption.
    now destruct (pred_result p).
  - unfold update_predictions. cbn [wingo_predictions].
    apply (settle_other actual_result); [exact Hi|].
    intros s Hs.
    now apply (unselected_ids_differ period_id duration
                 (wingo_predictions db) i).
Qed.

(** X5: on a table with distinct ids, [update_predictions] rewrites
    exactly the open rows of the period and duration given: each of them
    receives the actual result and the win flag of the substring test,
    every other row is left as it is, no row is added or dropped, so no
    prediction of that period stays open; the outcomes are not touched. *)
Theorem update_predictions_settles_exactly_open (db : database)
    (period_id : Z) (duration actual_result : string) :
  unique_ids (wingo_predictions db) ->
  let db' := update_predictions db period_id duration actual_result in
  (forall i p,
     wingo_predictions db !! i = Some p ->
     wingo_predictions db' !! i
     = Some (if pred_matches period_id duration p
                && is_null (pred_result p)
             then set_outcome actual_result
                    (is_win (pred_prediction p) actual_result) p
             else p))
  /\ length (wingo_predictions db') = length (wingo_predictions db)
  /\ (forall p, In p (wingo_predictions db') ->
                pred_matches period_id duration p = true ->
                pred_result p <> None)
  /\ wingo_results db' = wingo_results db.
Proof.
  intros Hu db'.
  assert (Hlen : length (wingo_predictions db')
                 = length (wingo_predictions db)).
  { rewrite <- (length_map pred_id (wingo_predictions db')).
    subst db'. rewrite update_predictions_ids. apply length_map. }
  split; [|split; [exact Hlen | split; [|reflexivity]]].
  - intros i p Hi. now apply update_predictions_row.
  - intros p' Hin Hm.
    apply list_elem_of_In, list_elem_of_lookup in Hin as [i Hi'].
    destruct (wingo_predictions db !! i) as [p|] eqn:Hi.
    + subst db'.
      rewrite (update_predictions_row db period_id duration actual_result
                 i p Hu Hi) in Hi'.
      injection Hi' as <-.
      destruct (pred_matches period_id duration p
                && is_null (pred_result p)) eqn:Hsel.
      * discriminate.
      * rewrite Hm in Hsel. simpl in Hsel.
        destruct (pred_result p); [discriminate | discriminate Hsel].
    + apply lookup_ge_None in Hi. apply lookup_lt_Some in Hi'. lia.
Qed.

Lemma update_predictions_settles_exactly_open_witness :
  let db := mkDatabase []
              [mkPrediction 1 813 "30 SEC" "BIG" None None
                 "2024-01-01 00:00:30";
               mkPrediction 2 813 "1 MIN" "RED" None None
                 "2024-01-01 00:00:31"] in
  unique_ids (wingo_predictions db)
  /\ wingo_predictions (update_predictions db 813 "30 SEC" "SMALL")
     = [mkPrediction 1 813 "30 SEC" "BIG" (Some "SMALL") (Some false)
          "2024-01-01 00:00:30";
        mkPrediction 2 813 "1 MIN" "RED" None None "2024-01-01 00:00:31"].
Proof.
  intros db.
  assert (H : unique_ids (wingo_predictions db)).
  { unfold unique_ids. simpl. apply (bool_decide_unpack _). vm_compute.
    exact I. }
  split; [exact H|].
  destruct (update_predictions_settles_exactly_open db 813 "30 SEC" "SMALL" H)
    as (Hrows & Hlen & _).
  apply list_eq. intros [|[|i]].
  - exact (Hrows 0%nat _ eq_refl).
  - exact (Hrows 1%nat _ eq_refl).
  - reflexivity.
Defined.

(** Saving for the next period and recording the next outcome. *)
Lemma save_then_add_settles (db : database)
    (duration prediction now result color size now2 : string) :
  unique_ids (wingo_predictions db) ->
  (forall p, In p (wingo_predictions db) ->
             pred_matches (Database.get_next_period_id db duration)
               duration p = false) ->
  let period_id := Database.get_next_period_id db duration in
  let saved := save_prediction db period_id duration prediction now in
  let added := add_new_result (fst saved) duration result color size now2 in
  snd added = period_id
  /\ wingo_predictions (fst added)
     = wingo_predictions db
       ++ [mkPrediction (snd saved) period_id duration prediction
             (Some result) (Some (is_win prediction result)) now].
Proof.
  intros Hu Hnone period_id saved added.
  pose proof (save_prediction_ids db period_id duration prediction now Hu)
    as Hu'.
  subst added saved.
  rewrite (save_prediction_absent period_id duration prediction now db Hnone)
    in *.
  cbn [fst snd] in *.
  set (id := next_rowid (map pred_id (wingo_predictions db))) in *.
  set (new := mkPrediction id period_id duration prediction None None now)
    in *.
  unfold add_new_result. cbn [fst snd].
  split; [reflexivity|].
  change (Database.get_next_period_id
            (mkDatabase (wingo_results db) (wingo_predictions db ++ [new]))
            duration) with period_id.
  set (db1 := insert_result _ period_id duration result color size now2).
  assert (Hpreds : wingo_predictions db1 = wingo_predictions db ++ [new])
    by reflexivity.
  assert (Hu1 : unique_ids (wingo_predictions db1)) by now rewrite Hpreds.
  apply list_eq. intros i.
  destruct (wingo_predictions db1 !! i) as [p|] eqn:Hi.
  - rewrite (update_predictions_row db1 period_id duration result i p Hu1 Hi).
    rewrite Hpreds in Hi.
    apply lookup_app_Some in Hi as [Hi|[Hge Hi]].
    + rewrite (lookup_app_l_Some _ _ _ _ Hi).
      apply list_elem_of_lookup_2, list_elem_of_In, Hnone in Hi.
      fold period_id in Hi. now rewrite Hi.
    + rewrite lookup_app_r by exact Hge.
      destruct (i - length (wingo_predictions db))%nat as [|k];
        [|destruct k; discriminate Hi].
      injection Hi as <-. simpl. unfold new at 1 2.
      now rewrite pred_matches_new.
  - pose proof Hi as Hge. apply lookup_ge_None in Hge.
    rewrite Hpreds in Hge.
    transitivity (@None prediction_row).
    + apply lookup_ge_None.
      rewrite <- (length_map pred_id), update_predictions_ids, length_map.
      now rewrite Hpreds.
    + symmetry. apply lookup_ge_None.
      rewrite length_app in *. simpl in *. lia.
Qed.

(** X6: a prediction saved for the next period of a duration, on a table
    with distinct ids holding no row for that period yet, is settled by
    the next [add_new_result] of the duration: the outcome is recorded
    under that very period, and the prediction row receives the result and
    the win flag of the substring test, the other rows staying as they
    were. *)
Theorem saved_prediction_is_settled_by_next_result (db : database)
    (duration prediction now result color size now2 : string) :
  unique_ids (wingo_predictions db) ->
  (forall p, In p (wingo_predictions db) ->
             pred_matches (Database.get_next_period_id db duration)
               duration p = false) ->
  let period_id := Database.get_next_period_id db duration in
  let saved := save_prediction db period_id duration prediction now in
  let added := add_new_result (fst saved) duration result color size now2 in
  snd added = period_id
  /\ wingo_predictions (fst added)
     = wingo_predictions db
       ++ [mkPrediction (snd saved) period_id duration prediction
             (Some result) (Some (is_win prediction result)) now].
Proof.
  intros Hu Hnone.
  exact (save_then_add_settles db duration prediction now result color size
           now2 Hu Hnone).
Qed.

Lemma saved_prediction_is_settled_by_next_result_witness :
  let db := mkDatabase
              [mkResult 1 812 "30 SEC" "GREEN" "GREEN" "BIG"
                 "2024-01-01 00:00:00"]
              [mkPrediction 1 812 "30 SEC" "GREEN" (Some "GREEN") (Some true)
                 "2024-01-01 00:00:00"] in
  unique_ids (wingo_predictions db)
  /\ wingo_predictions
       (fst (add_new_result
               (fst (save_prediction db 813 "30 SEC" "RED"
                       "2024-01-01 00:00:05"))
               "30 SEC" "BIG" "RED" "BIG" "2024-01-01 00:00:30"))
     = wingo_predictions db
       ++ [mkPrediction 2 813 "30 SEC" "RED" (Some "BIG") (Some false)
             "2024-01-01 00:00:05"].
Proof.
  intros db.
  assert (H : unique_ids (wingo_predictions db)).
  { unfold unique_ids. simpl. apply NoDup_singleton. }
  split; [exact H|].
  refine (proj2 (saved_prediction_is_settled_by_next_result db "30 SEC" "RED"
                   "2024-01-01 00:00:05" "BIG" "RED" "BIG"
                   "2024-01-01 00:00:30" H _)).
  intros p [<-|[]]. reflexivity.
Defined.

(** ** The win rate *)

Lemma win_bits_bounded (rows : list prediction_row) :
  0 <= fold_right Z.add 0 (map win_bit rows) <= Z.of_nat (length rows).
Proof.
  induction rows as [|p rows IH]; simpl length; simpl fold_right; [lia|].
  assert (0 <= win_bit p <= 1).
  { unfold win_bit. destruct (pred_is_win p) as [[|]|]; lia. }
  lia.
Qed.

(** X7: [get_win_rate] does not look at the last [last_n] predictions:
    for every [last_n] other than 0 it gives the same value, computed over
    all the settled predictions of the duration; that value is the default
    when there is none, and otherwise the quotient of the number of wins,
    between 0 and the total, by the total; with [last_n = 0] it is the
    default. *)
Theorem get_win_rate_ignores_last_n (db : database) (duration : string)
    (last_n : Z) :
  (last_n = 0 -> get_win_rate db duration last_n = DefaultRate)
  /\ (last_n <> 0 ->
      get_win_rate db duration last_n = get_win_rate db duration 20)
  /\ (settled_for duration (wingo_predictions db) = [] ->
      get_win_rate db duration last_n = DefaultRate)
  /\ (forall wins total,
        get_win_rate db duration last_n = Ratio wins total ->
        total = Z.of_nat (length (settled_for duration
                                    (wingo_predictions db)))
        /\ 0 <= wins <= total /\ 0 < total).
Proof.
  unfold get_win_rate.
  set (rows := settled_for duration (wingo_predictions db)).
  pose proof (win_bits_bounded rows) as Hb.
  set (wins := fold_right Z.add 0 (map win_bit rows)) in *.
  split; [|split; [|split]].
  - intros ->. reflexivity.
  - intros Hne. unfold sql_limit.
    destruct (Z.ltb_spec last_n 0); simpl; [reflexivity|].
    destruct (Z.to_nat last_n) eqn:E; [lia | reflexivity].
  - intros Hnil. rewrite Hnil. simpl.
    unfold sql_limit. destruct (last_n <? 0); [reflexivity|].
    now destruct (Z.to_nat last_n).
  - intros w t H.
    assert (Hrow : (if 0 <? Z.of_nat (length rows)
                    then Ratio wins (Z.of_nat (length rows))
                    else DefaultRate) = Ratio w t).
    { unfold sql_limit in H. destruct (last_n <? 0); [exact H|].
      destruct (Z.to_nat last_n); [discriminate H | exact H]. }
    destruct (Z.ltb_spec 0 (Z.of_nat (length rows))); [|discriminate Hrow].
    injection Hrow as <- <-. lia.
Qed.

(** ** The stores the program produces, once more *)

Lemma run_call_outcomes_unique (db : database) (c : store_call) :
  one_outcome_per_period (wingo_results db) ->
  one_outcome_per_period (wingo_results (run_call db c)).
Proof.
  intros Hu. destruct c; cbn [run_call].
  - unfold save_prediction.
    now destruct (List.find _ (wingo_predictions db)).
  - exact Hu.
  - unfold add_new_result, update_predictions, insert_result.
    cbn [fst wingo_results]. unfold one_outcome_per_period.
    rewrite map_app. apply NoDup_app. split; [exact Hu|].
    split; [|apply NoDup_singleton].
    intros k Hk Hk'. apply list_elem_of_singleton in Hk'. subst k.
    apply list_elem_of_In, in_map_iff in Hk as (r & Hkey & Hr).
    unfold res_key in Hkey. simpl in Hkey. injection Hkey as Hp Hd.
    pose proof (get_next_period_id_above db duration r Hr Hd). lia.
Qed.

Lemma seeded_outcomes_unique (now : nat -> string) (draw : nat -> bool) :
  one_outcome_per_period (wingo_results (init_database None now draw)).
Proof.
  unfold one_outcome_per_period. apply (bool_decide_unpack _).
  vm_compute. exact I.
Qed.

(** X8: every store the program produces, from the seed of a new database
    through any sequence of its writing calls, holds at most one outcome
    and at most one prediction per (period, duration), predictions with
    distinct ids, and positive period identifiers only. *)
Theorem reachable_store_is_well_formed (db : database) :
  reachable db ->
  one_outcome_per_period (wingo_results db)
  /\ one_row_per_period (wingo_predictions db)
  /\ unique_ids (wingo_predictions db)
  /\ positive_periods (wingo_results db).
Proof.
  intros Hr. split; [|now apply reachable_invariants].
  destruct Hr as (now & draw & calls & ->). unfold run_calls.
  generalize (seeded_outcomes_unique now draw).
  generalize (init_database None now draw).
  induction calls as [|c calls IH]; intros db H; [exact H|].
  simpl. apply IH. now apply run_call_outcomes_unique.
Qed.

Lemma reachable_store_is_well_formed_witness :
  let db := run_calls
              (init_database None (fun _ => "2024-01-01 00:00:00")
                 (fun k => Nat.even k))
              [AddNewResult "30 SEC" "BIG" "RED" "BIG" "2024-01-01 00:00:30";
               SavePrediction 814 "30 SEC" "SMALL" "2024-01-01 00:00:35"] in
  reachable db
  /\ one_outcome_per_period (wingo_results db)
  /\ one_row_per_period (wingo_predictions db).
Proof.
  intros db.
  assert (H : reachable db) by (do 3 eexists; reflexivity).
  split; [exact H|].
  destruct (reachable_store_is_well_formed db H) as (H1 & H2 & _).
  split; [exact H1 | exact H2].
Defined.

(** X9: on a store the program produces, [get_next_period_id] returns 790
    for a duration with no outcome and otherwise one more than the largest
    period identifier recorded for the duration, which is then greater
    than every period identifier of the duration. *)
Theorem get_next_period_id_on_reachable_store (db : database)
    (duration : string) :
  reachable db ->
  (results_for duration (wingo_results db) = [] ->
   Database.get_next_period_id db duration = 790)
  /\ (forall m, max_period_id db duration = Some m ->
                Database.get_next_period_id db duration = m + 1)
  /\ (forall r, In r (wingo_results db) -> res_duration r = duration ->
                res_period_id r < Database.get_next_period_id db duration).
Proof.
  intros Hr. split; [apply get_next_period_id_empty|].
  split.
  - intros m Hm. now apply get_next_period_id_reachable.
  - intros r Hin Hd. now apply get_next_period_id_above.
Qed.

Lemma get_next_period_id_on_reachable_store_witness :
  let db := init_database None (fun _ => "2024-01-01 00:00:00")
              (fun _ => true) in
  reachable db
  /\ Database.get_next_period_id db "30 SEC" = 813
  /\ Database.get_next_period_id db "1 MIN" = 811
  /\ Database.get_next_period_id db "5 MIN" = 790.
Proof.
  intros db.
  assert (H : reachable db).
  { exists (fun _ => "2024-01-01 00:00:00"), (fun _ => true), [].
    reflexivity. }
  split; [exact H|].
  destruct (get_next_period_id_on_reachable_store db "30 SEC" H)
    as (_ & H30 & _).
  destruct (get_next_period_id_on_reachable_store db "1 MIN" H)
    as (_ & H60 & _).
  destruct (get_next_period_id_on_reachable_store db "5 MIN" H)
    as (H5 & _ & _).
  split; [exact (H30 812 eq_refl)|].
  split; [exact (H60 810 eq_refl) | exact (H5 eq_refl)].
Defined.

(** X10: a new database is seeded with the curated outcomes in their
    order and one settled prediction for each of them; whatever the draws
    and the clock, the [k]-th prediction wins exactly when the [k]-th draw
    says so, it is the outcome's result when it wins and another label
    when it loses, and its win flag is the one the substring test of
    [update_predictions] gives. *)
Theorem seed_database_win_flags_follow_draws (now : nat -> string)
    (draw : nat -> bool) :
  let db := init_database None now draw in
  map (fun r => (res_period_id r, res_duration r, res_result r,
                 res_color r, res_size r)) (wingo_results db) = patterns
  /\ length (wingo_predictions db) = length patterns
  /\ forall k p,
       wingo_predictions db !! k = Some p ->
       exists result,
         pred_result p = Some result
         /\ pred_prediction p = seed_prediction (draw k) result
         /\ pred_is_win p = Some (draw k)
         /\ is_win (pred_prediction p) result = draw k
         /\ (fst <$> (fst <$> patterns !! k))
            = Some (pred_period_id p, pred_duration p, result).
Proof.
  intros db. split; [reflexivity|]. split; [reflexivity|].
  intros k p Hk.
  assert (Hpreds : exists l, wingo_predictions db = l) by now eexists.
  destruct Hpreds as [l Hl]. rewrite Hl in Hk.
  vm_compute in Hl. subst l.
  do 22 (destruct k as [|k];
         [injection Hk as <-; eexists; split; [reflexivity|];
          cbn [pred_prediction pred_is_win pred_period_id pred_duration];
          destruct (draw _); repeat split|]).
  discriminate Hk.
Qed.

(** ** The registry, once more *)

Section RegistryOps.

Variables (reg : gmap string (list handle)) (duration : string).

Lemma remove_first_absent (h : handle) (l : list handle) :
  mem h l = false -> remove_first h l = l.
Proof.
  unfold mem. induction l as [|y l IH]; simpl; [reflexivity|].
  intros H. apply orb_false_iff in H as [Hy Hl].
  assert (E : handle_eqb y h = false).
  { unfold handle_eqb in *. now rewrite (Z.eqb_sym (fst y)), (Z.eqb_sym (snd y)). }
  rewrite E. f_equal. now apply IH.
Qed.

Lemma remove_first_appended (h : handle) (l : list handle) :
  mem h l = false -> remove_first h (l ++ [h]) = l.
Proof.
  unfold mem. induction l as [|y l IH]; simpl.
  - now rewrite handle_eqb_refl.
  - intros H. apply orb_false_iff in H as [Hy Hl].
    assert (E : handle_eqb y h = false).
    { unfold handle_eqb in *.
      now rewrite (Z.eqb_sym (fst y)), (Z.eqb_sym (snd y)). }
    rewrite E. f_equal. now apply IH.
Qed.

Lemma mem_app_r (h : handle) (l : list handle) : mem h (l ++ [h]) = true.
Proof.
  unfold mem. rewrite existsb_app. simpl.
  rewrite handle_eqb_refl. now rewrite orb_true_r.
Qed.

(** X11: the registry's operations fail exactly on a duration that is not
    one of its keys (the [KeyError]), and none of them, the retention cap
    included, adds or drops a key. *)
Theorem registry_keys_are_fixed (chat_id message_id : Z) :
  (is_Some (register_active_message reg duration chat_id message_id)
   <-> is_Some (reg !! duration))
  /\ (is_Some (unregister_active_message reg duration chat_id message_id)
      <-> is_Some (reg !! duration))
  /\ (forall reg',
        register_active_message reg duration chat_id message_id = Some reg'
        \/ unregister_active_message reg duration chat_id message_id
           = Some reg' ->
        dom reg' = dom reg)
  /\ dom (clear_old_messages reg) = dom reg.
Proof.
  unfold register_active_message, unregister_active_message.
  destruct (reg !! duration) as [l|] eqn:Hl.
  - assert (Hdom : forall l', dom (<[duration := l']> reg) = dom reg).
    { intros l'. rewrite dom_insert_L.
      apply subseteq_union_1_L, singleton_subseteq_l, elem_of_dom. eauto. }
    split; [split; eauto|]. split.
    { destruct (mem _ l); split; eauto. }
    split.
    + intros reg' [H|H].
      * injection H as <-. apply Hdom.
      * destruct (mem _ l); injection H as <-; [apply Hdom | reflexivity].
    + unfold clear_old_messages. apply dom_fmap_L.
  - split; [split; intros [? H]; discriminate H|].
    split; [split; intros [? H]; discriminate H|].
    split; [intros reg' [H|H]; discriminate H|].
    unfold clear_old_messages. apply dom_fmap_L.
Qed.

(** X12: registering a handle that the duration's list does not hold and
    unregistering it again gives back the registry as it was. *)
Theorem register_then_unregister (chat_id message_id : Z)
    (l : list handle) :
  reg !! duration = Some l ->
  mem (chat_id, message_id) l = false ->
  exists reg',
    register_active_message reg duration chat_id message_id = Some reg'
    /\ unregister_active_message reg' duration chat_id message_id = Some reg.
Proof.
  intros Hl Hmem. unfold register_active_message. rewrite Hl.
  eexists. split; [reflexivity|].
  unfold unregister_active_message. rewrite lookup_insert_eq.
  rewrite mem_app_r. f_equal.
  rewrite insert_insert_eq. rewrite remove_first_appended by exact Hmem.
  now apply insert_id.
Qed.

End RegistryOps.

Lemma register_then_unregister_witness :
  let reg := <["30 SEC" := [(1, 10)]]> active_messages in
  reg !! "30 SEC" = Some [(1, 10)]
  /\ mem (1, 11) [(1, 10)] = false
  /\ exists reg',
       register_active_message reg "30 SEC" 1 11 = Some reg'
       /\ unregister_active_message reg' "30 SEC" 1 11 = Some reg.
Proof.
  intros reg.
  assert (H1 : reg !! "30 SEC" = Some [(1, 10)]) by reflexivity.
  assert (H2 : mem (1, 11) [(1, 10)] = false) by reflexivity.
  split; [exact H1|]. split; [exact H2|].
  exact (register_then_unregister reg "30 SEC" 1 11 [(1, 10)] H1 H2).
Defined.

Lemma handle_eqb_eq (a b : handle) : handle_eqb a b = true <-> a = b.
Proof.
  unfold handle_eqb. destruct a as [a1 a2], b as [b1 b2]. simpl.
  rewrite andb_true_iff, !Z.eqb_eq. split; [intros [-> ->] | intros [= -> ->]];
    tauto.
Qed.


Lemma remove_first_occurrences (h h' : handle) (l : list handle) :
  occurrences h' (remove_first h l)
  = if handle_eqb h' h then Nat.pred (occurrences h' l)
    else occurrences h' l.
Proof.
  unfold occurrences. induction l as [|y l IH]; simpl.
  - now destruct (handle_eqb h' h).
  - destruct (handle_eqb y h) eqn:Hy.
    + apply handle_eqb_eq in Hy. subst y.
      destruct (handle_eqb h' h); reflexivity.
    + simpl. destruct (handle_eqb h' y) eqn:Hy'; simpl; [|exact IH].
      rewrite IH. destruct (handle_eqb h' h) eqn:Hh; [|reflexivity].
      apply handle_eqb_eq in Hy', Hh. subst h' y.
      rewrite handle_eqb_refl in Hy. discriminate Hy.
Qed.

Lemma remove_first_sublist (h : handle) (l : list handle) :
  remove_first h l `sublist_of` l.
Proof.
  induction l as [|y l IH]; simpl; [constructor|].
  destruct (handle_eqb y h); [now apply sublist_cons|now apply sublist_skip].
Qed.

Lemma mem_false_occurrences (h : handle) (l : list handle) :
  mem h l = false -> occurrences h l = 0%nat.
Proof.
  unfold mem, occurrences. induction l as [|y l IH]; simpl; [reflexivity|].
  intros H. apply orb_false_iff in H as [-> Hl]. now apply IH.
Qed.

Lemma remove_first_middle (a : handle) (kept rest : list handle) :
  a ∉ kept -> remove_first a (kept ++ a :: rest) = kept ++ rest.
Proof.
  induction kept as [|y kept IH]; simpl; intros Hnot.
  - now rewrite handle_eqb_refl.
  - destruct (handle_eqb y a) eqn:E.
    + apply handle_eqb_eq in E. subst y. exfalso. apply Hnot.
      apply list_elem_of_here.
    + f_equal. apply IH. intros Hin. apply Hnot.
      now apply list_elem_of_further.
Qed.

(** X13: [unregister_active_message] takes one occurrence of the handle
    out of the duration's list, the first one, when there is one: the
    handle's number of occurrences drops by one (staying 0 when it was not
    registered), every other handle keeps its occurrences, the remaining
    entries keep their order, the other durations are untouched, and the
    list left is the old one without the first occurrence of the handle.
    A handle registered twice is therefore still registered after one
    unregistration. *)
Theorem unregister_removes_one_occurrence
    (reg : gmap string (list handle)) (duration : string)
    (chat_id message_id : Z) (l : list handle) :
  reg !! duration = Some l ->
  exists reg' l',
    unregister_active_message reg duration chat_id message_id = Some reg'
    /\ reg' !! duration = Some l'
    /\ occurrences (chat_id, message_id) l'
       = Nat.pred (occurrences (chat_id, message_id) l)
    /\ (forall h, h <> (chat_id, message_id) ->
                  occurrences h l' = occurrences h l)
    /\ l' `sublist_of` l
    /\ (forall other, other <> duration -> reg' !! other = reg !! other)
    /\ (forall before after,
          l = before ++ (chat_id, message_id) :: after ->
          (chat_id, message_id) ∉ before ->
          l' = before ++ after).
Proof.
  intros Hl. unfold unregister_active_message. rewrite Hl.
  destruct (mem (chat_id, message_id) l) eqn:Hmem.
  - eexists _, _. split; [reflexivity|].
    split; [apply lookup_insert_eq|].
    split; [rewrite remove_first_occurrences; now rewrite handle_eqb_refl|].
    split.
    + intros h Hne. rewrite remove_first_occurrences.
      destruct (handle_eqb h (chat_id, message_id)) eqn:E; [|reflexivity].
      now apply handle_eqb_eq in E.
    + split; [apply remove_first_sublist|].
      split; [intros other Hne; now apply lookup_insert_ne|].
      intros before after -> Hnot. now apply remove_first_middle.
  - exists reg, l. split; [reflexivity|]. split; [exact Hl|].
    split; [now rewrite (mem_false_occurrences _ _ Hmem)|].
    split; [reflexivity|]. split; [reflexivity|]. split; [reflexivity|].
    intros before after -> _. exfalso.
    assert (Htrue : mem (chat_id, message_id)
                      (before ++ (chat_id, message_id) :: after) = true).
    { unfold mem. apply existsb_exists. exists (chat_id, message_id).
      split; [apply in_or_app; right; now left | apply handle_eqb_refl]. }
    congruence.
Qed.

Lemma unregister_removes_one_occurrence_witness :
  let reg := <["30 SEC" := [(1, 10); (2, 20); (1, 10)]]> active_messages in
  reg !! "30 SEC" = Some [(1, 10); (2, 20); (1, 10)]
  /\ exists reg' l',
       unregister_active_message reg "30 SEC" 1 10 = Some reg'
       /\ reg' !! "30 SEC" = Some l'
       /\ occurrences (1, 10) l' = 1%nat.
Proof.
  intros reg.
  assert (H : reg !! "30 SEC" = Some [(1, 10); (2, 20); (1, 10)])
    by reflexivity.
  split; [exact H|].
  destruct (unregister_removes_one_occurrence reg "30 SEC" 1 10 _ H)
    as (reg' & l' & H1 & H2 & H3 & _).
  exists reg', l'. split; [exact H1|]. split; [exact H2 | exact H3].
Defined.

(** X14: [clear_old_messages] is idempotent: run a second time it changes
    nothing. *)
Theorem clear_old_messages_idempotent (reg : gmap string (list handle)) :
  clear_old_messages (clear_old_messages reg) = clear_old_messages reg.
Proof.
  unfold clear_old_messages. apply map_eq. intros duration.
  rewrite !lookup_fmap. destruct (reg !! duration) as [l|]; [|reflexivity].
  simpl. f_equal. unfold max_messages.
  destruct (Nat.ltb_spec 20 (length l)) as [Hlt|Hle].
  - rewrite last_n_length by lia. reflexivity.
  - destruct (Nat.ltb_spec 20 (length l)); [lia | reflexivity].
Qed.

(** ** The scheduled update, once more *)


Section EditLoopAccounting.

Variables (edit_fails : nat -> handle -> bool) (duration : string).


End EditLoopAccounting.










(** ** The remote fetch, once more *)

Section RemoteRecords.

Variable format_created_time : json -> option string.
Variable int_of_str : string -> option Z.

(** X19: a record is converted exactly when it is an object whose
    creation time can be formatted; the converted colour is RED, GREEN or
    empty, the size BIG, SMALL or empty, and the result is the size
    whenever there is one and the colour otherwise, so a size always
    overrides the colour. *)
Theorem process_record_size_overrides_colour (record : json)
    (result : web_result) :
  process_record format_created_time record = Some result ->
  is_object record = true
  /\ In (wr_color result) ["RED"; "GREEN"; ""]
  /\ In (wr_size result) ["BIG"; "SMALL"; ""]
  /\ wr_result result
     = (if String.eqb (wr_size result) "" then wr_color result
        else wr_size result)
  /\ In (wr_result result) ["RED"; "GREEN"; "BIG"; "SMALL"; ""].
Proof.
  clear int_of_str.
  destruct record as [| | | | | |fields]; try discriminate.
  unfold process_record.
  destruct (format_created_time _) as [timestamp|]; [|discriminate].
  intros [= <-]. cbn [wr_color wr_size wr_result].
  split; [reflexivity|].
  destruct (py_eq_int (dict_get_default "colorType" JNull fields) 1);
    destruct (py_eq_int (dict_get_default "colorType" JNull fields) 2);
    destruct (py_eq_int (dict_get_default "sizeType" JNull fields) 1);
    destruct (py_eq_int (dict_get_default "sizeType" JNull fields) 2);
    simpl; tauto.
Qed.

Lemma read_reply_nonempty (reply : http_reply) (results : list web_result) :
  read_reply format_created_time reply = Some results -> results <> [] ->
  exists fields data records,
    reply = Response 200 (Some (JObj fields))
    /\ truthy (dict_get_default "success" JNull fields) = true
    /\ dict_get "data" fields = Some data
    /\ py_iter data = Some records
    /\ mapM (process_record format_created_time) records = Some results.
Proof.
  destruct reply as [|status_code body]; simpl; [discriminate|].
  destruct (Z.eqb_spec status_code 200) as [->|_];
    [|intros [= <-] Hne; now contradiction Hne].
  destruct body as [[| | | | | |fields]|]; try discriminate.
  destruct (truthy _) eqn:Hs; [|intros [= <-] Hne; now contradiction Hne].
  destruct (dict_get "data" fields) as [data|] eqn:Hd;
    [|intros [= <-] Hne; now contradiction Hne].
  destruct (py_iter data) as [records|] eqn:Hi; [|discriminate].
  intros H _. now exists fields, data, records.
Qed.

(** X20: [get_wingo_results] converts all the records of a reply or none:
    a non-empty answer means the reply had status 200 and an object body
    with a truthy [success] and an iterable [data], and the answer holds
    the conversion of every record of [data], one result per record in
    their order, whatever the limit asked. *)
Theorem get_wingo_results_all_or_nothing (limit : Z) (duration : string)
    (w : world) :
  fst (get_wingo_results format_created_time limit duration w) <> [] ->
  exists fields data records,
    next_reply w = Response 200 (Some (JObj fields))
    /\ truthy (dict_get_default "success" JNull fields) = true
    /\ dict_get "data" fields = Some data
    /\ py_iter data = Some records
    /\ mapM (process_record format_created_time) records
       = Some (fst (get_wingo_results format_created_time limit duration w))
    /\ length (fst (get_wingo_results format_created_time limit duration w))
       = length records.
Proof.
  unfold get_wingo_results, requests_get. cbn [fst].
  destruct (read_reply format_created_time (next_reply w))
    as [results|] eqn:E; [|intros Hne; now contradiction Hne].
  intros Hne.
  destruct (read_reply_nonempty _ _ E Hne)
    as (fields & data & records & H1 & H2 & H3 & H4 & H5).
  exists fields, data, records. repeat (split; [assumption|]).
  apply length_mapM in H5. now symmetry.
Qed.

Lemma remove_spaces_idempotent (s : string) :
  PyStr.remove_spaces (PyStr.remove_spaces s) = PyStr.remove_spaces s.
Proof.
  induction s as [|c s IH]; simpl; [reflexivity|].
  destruct (Ascii.eqb c " ") eqn:E; [exact IH|].
  simpl. rewrite E. now rewrite IH.
Qed.

(** X21: the scraper's [get_next_period_id] ignores the spaces of the
    duration, so "30 SEC" and "30SEC" are the same request; it sends
    exactly one GET, asking for one record of game 4 when the duration
    without spaces is "30SEC" and of game 3 otherwise; and it answers 1000
    whenever the fetch fails, and whenever the fetch gives no result. *)
Theorem scraper_next_period_id_normalises_duration (duration : string)
    (w : world) :
  WebScraper.get_next_period_id format_created_time int_of_str duration w
  = WebScraper.get_next_period_id format_created_time int_of_str
      (PyStr.remove_spaces duration) w
  /\ sent (snd (WebScraper.get_next_period_id format_created_time
                  int_of_str duration w))
     = sent w
       ++ [mkRequest API_URL
             [("id", PInt (if String.eqb (PyStr.remove_spaces duration)
                                "30SEC" then 4 else 3));
              ("count", PInt 1);
              ("language", PStr "en")]
             HEADERS 10]
  /\ (remote_failure format_created_time (next_reply w) = true ->
      fst (WebScraper.get_next_period_id format_created_time int_of_str
             duration w) = 1000)
  /\ (fst (get_wingo_results format_created_time 1
             (PyStr.remove_spaces duration) w) = [] ->
      fst (WebScraper.get_next_period_id format_created_time int_of_str
             duration w) = 1000).
Proof.
  unfold WebScraper.get_next_period_id.
  rewrite remove_spaces_idempotent. split; [reflexivity|].
  assert (Hnil : fst (get_wingo_results format_created_time 1
                        (PyStr.remove_spaces duration) w) = [] ->
                 fst (let '(results, w') :=
                        get_wingo_results format_created_time 1
                          (PyStr.remove_spaces duration) w in
                      (match results with
                       | [] => 1000
                       | latest :: _ =>
                           match py_int int_of_str (wr_period_id latest) with
                           | Some n => n + 1
                           | None => 1000
                           end
                       end, w')) = 1000).
  { destruct (get_wingo_results _ 1 _ w) as [results w'].
    simpl. now intros ->. }
  split; [|split].
  - destruct (get_wingo_results _ 1 _ w) as [results w'] eqn:E.
    cbn [snd]. change w' with (snd (results, w')). rewrite <- E.
    unfold get_wingo_results, requests_get.
    rewrite request_params_eq. reflexivity.
  - intros Hfail. apply Hnil.
    now apply get_wingo_results_failure.
  - exact Hnil.
Qed.

End RemoteRecords.

Lemma process_record_size_overrides_colour_witness :
  let record := JObj [("issueNumber", JInt 20240101001);
                      ("colorType", JInt 1);
                      ("sizeType", JInt 2);
                      ("createdTime", JInt 1704067200000)] in
  let result := mkWebResult (JInt 20240101001) "SMALL" "RED" "SMALL"
                  "2024-01-01 00:00:00" in
  process_record (fun _ => Some "2024-01-01 00:00:00") record = Some result
  /\ wr_result result = "SMALL".
Proof.
  intros record result.
  assert (H : process_record (fun _ => Some "2024-01-01 00:00:00") record
              = Some result) by reflexivity.
  split; [exact H|].
  destruct (process_record_size_overrides_colour
              (fun _ => Some "2024-01-01 00:00:00") record result H)
    as (_ & _ & _ & Hres & _).
  exact Hres.
Defined.

Lemma get_wingo_results_all_or_nothing_witness :
  let record := JObj [("issueNumber", JInt 20240101001);
                      ("colorType", JInt 2);
                      ("createdTime", JInt 1704067200000)] in
  let reply := Response 200
                 (Some (JObj [("success", JBool true);
                              ("data", JArr [record; record; record])])) in
  let w := mkWorld [] [reply] in
  let fmt := fun _ : json => Some "2024-01-01 00:00:00" in
  fst (get_wingo_results fmt 1 "1MIN" w) <> []
  /\ length (fst (get_wingo_results fmt 1 "1MIN" w)) = 3%nat.
Proof.
  intros record reply w fmt.
  assert (H : fst (get_wingo_results fmt 1 "1MIN" w) <> []) by discriminate.
  split; [exact H|].
  destruct (get_wingo_results_all_or_nothing fmt 1 "1MIN" w H)
    as (fields & data & records & Hreply & _ & Hdata & Hiter & _ & Hlen).
  injection Hreply as <-. injection Hdata as <-. injection Hiter as <-.
  exact Hlen.
Defined.

(** ** The content generator, once more *)

Lemma save_prediction_rows (db : database) (period_id : Z)
    (duration prediction now : string) :
  let db' := fst (save_prediction db period_id duration prediction now) in
  wingo_results db' = wingo_results db
  /\ (exists p, In p (wingo_predictions db')
                /\ pred_matches period_id duration p = true)
  /\ (forall p, In p (wingo_predictions db') ->
                pred_matches period_id duration p = true ->
                pred_prediction p = prediction /\ pred_timestamp p = now)
  /\ (length (wingo_predictions db) <= length (wingo_predictions db')
      <= S (length (wingo_predictions db)))%nat.
Proof.
  cbv zeta. unfold save_prediction.
  destruct (List.find _ (wingo_predictions db)) as [existing|] eqn:Hf;
    cbn [fst wingo_predictions wingo_results].
  - change (fun p => if pred_matches period_id duration p
                     then set_prediction prediction now p else p)
      with (rewrite_row_of period_id duration prediction now).
    pose proof (find_some _ _ Hf) as [Hin Hm].
    split; [reflexivity|]. split; [|split].
    + exists (rewrite_row_of period_id duration prediction now existing).
      split; [now apply in_map|]. now rewrite rewrite_row_matches.
    + intros p Hp Hpm. apply in_map_iff in Hp as (q & <- & Hq).
      rewrite rewrite_row_matches in Hpm. unfold rewrite_row_of.
      now rewrite Hpm.
    + rewrite length_map. lia.
  - split; [reflexivity|]. split; [|split].
    + eexists. split; [apply in_or_app; right; now left|].
      apply pred_matches_new.
    + intros p Hp Hpm. apply in_app_or in Hp as [Hp|[<-|[]]].
      * apply (find_none _ _ Hf) in Hp. congruence.
      * split; reflexivity.
    + rewrite length_app. simpl. lia.
Qed.

Section GeneratorFacts.

Variable format_created_time : json -> option string.
Variable int_of_str : string -> option Z.

Abbreviation generated db w duration limit now rnd current_second faults :=
  (generate_formatted_predictions format_created_time int_of_str
     db w duration limit now rnd current_second faults).

Abbreviation request_for duration count :=
  (mkRequest API_URL
     [("id", PInt (if String.eqb (PyStr.remove_spaces duration) "30SEC"
                   then 4 else 3));
      ("count", PInt count);
      ("language", PStr "en")]
     HEADERS 10).

Lemma get_wingo_results_world (limit : Z) (duration : string) (w : world) :
  snd (get_wingo_results format_created_time limit duration w)
  = mkWorld
      (sent w
       ++ [mkRequest API_URL
             [("id", PInt (if String.eqb duration "30SEC" then 4 else 3));
              ("count", PInt limit);
              ("language", PStr "en")]
             HEADERS 10])
      (tl (pending w)).
Proof.
  unfold get_wingo_results, requests_get. now rewrite request_params_eq.
Qed.

Lemma scraper_next_period_id_world (duration : string) (w : world) :
  snd (WebScraper.get_next_period_id format_created_time int_of_str
         duration w)
  = mkWorld (sent w ++ [request_for duration 1]) (tl (pending w)).
Proof.
  unfold WebScraper.get_next_period_id.
  rewrite <- get_wingo_results_world.
  now destruct (get_wingo_results _ 1 _ w).
Qed.

(** X22: every call of [generate_formatted_predictions] sends exactly
    two GET requests and takes two replies, whatever the replies are and
    however the call ends: one asking for [limit] records and one asking
    for one record, both for the game of the duration without its
    spaces. *)
Theorem generate_sends_two_requests (db : database) (w : world)
    (duration : string) (limit : Z) (now : string) (rnd : nat)
    (current_second : Z) (faults : list bool) :
  sent (network_after
          (generated db w duration limit now rnd current_second faults))
  = sent w ++ [request_for duration limit; request_for duration 1]
  /\ pending (network_after
                (generated db w duration limit now rnd current_second faults))
     = tl (tl (pending w)).
Proof.
  assert (E : network_after
                (generated db w duration limit now rnd current_second faults)
              = snd (WebScraper.get_next_period_id format_created_time
                       int_of_str duration
                       (snd (get_wingo_results format_created_time limit
                               (PyStr.remove_spaces duration) w)))).
  { pose proof (generate_spec format_created_time int_of_str db w duration
                  limit now rnd current_second faults) as Hgen.
    cbv zeta in Hgen.
    destruct (generated db w duration limit now rnd current_second faults)
      as [[text l]|db' w']; cbn [network_after];
      [|now destruct Hgen as [-> _]].
    now destruct Hgen as [_ [(_ & _ & _ & ->)|(_ & _ & ->)]]. }
  rewrite E, scraper_next_period_id_world, get_wingo_results_world.
  cbn [sent pending]. rewrite <- app_assoc. split; reflexivity.
Qed.

(** X23: every call of [generate_formatted_predictions] that returns
    saves the prediction it shows under the period it shows: the store it
    leaves is the one [save_prediction] makes of the old store for that
    period, duration and prediction, so the outcomes are untouched, a
    prediction row for the period exists, every row of the period carries
    the prediction shown, and at most one row was added; the text
    returned shows that period and that prediction above the past
    predictions of the store it leaves. A call that raises leaves the
    store as it was, or, when it is the reading of the past predictions
    that raises, as such a save left it. *)
Theorem generate_saves_its_prediction (db : database) (w : world)
    (duration : string) (limit : Z) (now : string) (rnd : nat)
    (current_second : Z) (faults : list bool) :
  match generated db w duration limit now rnd current_second faults with
  | Returns (text, out) =>
      db_after out
      = fst (save_prediction db (next_period out) duration
               (next_prediction out) now)
      /\ wingo_results (db_after out) = wingo_results db
      /\ (exists p, In p (wingo_predictions (db_after out))
                    /\ pred_matches (next_period out) duration p = true)
      /\ (forall p, In p (wingo_predictions (db_after out)) ->
                    pred_matches (next_period out) duration p = true ->
                    pred_prediction p = next_prediction out
                    /\ pred_timestamp p = now)
      /\ (length (wingo_predictions db)
          <= length (wingo_predictions (db_after out))
          <= S (length (wingo_predictions db)))%nat
      /\ text
         = format_output current_second duration (next_period out)
             (next_prediction out)
             (get_predictions (db_after out) duration 10)
  | Raises db' _ =>
      db' = db
      \/ exists period_id prediction,
           In prediction prediction_options
           /\ db' = fst (save_prediction db period_id duration prediction now)
  end.
Proof.
  pose proof (generate_spec format_created_time int_of_str db w duration
                limit now rnd current_second faults) as Hgen.
  cbv zeta in Hgen.
  destruct (generated db w duration limit now rnd current_second faults)
    as [[text l]|db' w'].
  - destruct Hgen as [Htext Hl].
    assert (E : db_after l
                = fst (save_prediction db (next_period l) duration
                         (next_prediction l) now))
      by (now destruct Hl as [(_ & _ & _ & ->)|(_ & _ & ->)]).
    pose proof (save_prediction_rows db (next_period l) duration
                  (next_prediction l) now) as Hrows.
    cbv zeta in Hrows. rewrite <- E in Hrows.
    destruct Hrows as (H1 & H2 & H3 & H4).
    split; [exact E|]. split; [exact H1|]. split; [exact H2|].
    split; [exact H3|]. split; [exact H4 | exact Htext].
  - destruct Hgen as (_ & _ & [->|[[_ ->]| ->]]); [now left | right | right];
      cbn [db_after]; eexists _, _; (split; [|reflexivity]).
    + apply alternate_in_options.
    + destruct (get_latest_results db duration limit);
        [now apply random_choice_in | apply alternate_in_options].
Qed.

(** X24: the prediction of a call of [generate_formatted_predictions]
    that returns is always one of RED, GREEN, BIG and SMALL, also when the
    last result is not one of the four labels or when no result is known;
    and whenever the results it holds are not empty (the remote results
    when the prediction is saved under the remote next period, the latest
    local results otherwise) the prediction differs from the result of
    the first of them. The call raises only when the store refuses the
    fallback or fails. *)
Theorem generate_never_repeats_last_result (db : database) (w : world)
    (duration : string) (limit : Z) (now : string) (rnd : nat)
    (current_second : Z) (faults : list bool) :
  match generated db w duration limit now rnd current_second faults with
  | Returns (_, out) =>
      In (next_prediction out) prediction_options
      /\ forall last,
           first_result (results out) = Some last ->
           next_prediction out <> last
  | Raises _ _ =>
      store_takes_fallback db duration limit = false \/ In true faults
  end.
Proof.
  pose proof (generate_alternates format_created_time int_of_str db w
                duration limit now rnd current_second faults) as Hgen.
  destruct (generated db w duration limit now rnd current_second faults)
    as [[text l]|db' w']; [|exact Hgen].
  destruct Hgen as [Hin Hlast]. split; [exact Hin|].
  intros last Hl. rewrite (Hlast last Hl). apply alternate_differs.
Qed.

End GeneratorFacts.

(** ** The win-rate driven generator *)

Import PredictionLogic.

Lemma count_complement {A} (f : A -> bool) (l : list A) :
  (count f l + count (fun x => negb (f x)) l = length l)%nat.
Proof.
  unfold count. induction l as [|x l IH]; simpl; [reflexivity|].
  destruct (f x); simpl; lia.
Qed.

Lemma adjacent_length {A} (l : list A) :
  length (adjacent l) = (length l - 1)%nat.
Proof.
  induction l as [|a [|b l] IH]; simpl in *; [reflexivity | reflexivity|].
  rewrite IH. lia.
Qed.

(** X25: the counters of [analyze_patterns] add up: RED and GREEN to the
    number of results, BIG and SMALL to the number of results, and the
    alternations and streaks, of colour as of size, to the number of
    results less one (to 0 for no result). *)
Theorem analyze_patterns_counts_add_up (results : list result_row) :
  let pats := analyze_patterns results in
  (n_RED pats + n_GREEN pats = length results)%nat
  /\ (n_BIG pats + n_SMALL pats = length results)%nat
  /\ (alternating_color pats + streak_color pats = length results - 1)%nat
  /\ (alternating_size pats + streak_size pats = length results - 1)%nat.
Proof.
  unfold analyze_patterns. cbn [n_RED n_GREEN n_BIG n_SMALL alternating_color
                                alternating_size streak_color streak_size].
  rewrite !count_complement, adjacent_length. repeat split.
Qed.

Section MostCommon.

Variable pats : patterns.

Abbreviation keep_larger :=
  (fun (acc : nat * string) (p_type : string) =>
     if (fst acc <? label_count pats p_type)%nat
     then (label_count pats p_type, p_type) else acc).

Lemma fold_keep_larger (labels : list string) (acc : nat * string) :
  let best := fold_left keep_larger labels acc in
  (fst acc <= fst best)%nat
  /\ (forall p_type, In p_type labels ->
                     (label_count pats p_type <= fst best)%nat)
  /\ (best = acc
      \/ (In (snd best) labels /\ label_count pats (snd best) = fst best)).
Proof.
  revert acc. induction labels as [|l labels IH]; intros acc; simpl.
  - split; [lia|]. split; [intros ? []|now left].
  - destruct (IH (keep_larger acc l)) as (Hge & Hall & Hbest).
    destruct (Nat.ltb_spec (fst acc) (label_count pats l)) as [Hlt|Hle];
      simpl in *.
    + split; [lia|]. split.
      * intros q [<-|Hq]; [exact Hge | now apply Hall].
      * right. destruct Hbest as [->|[Hin Hc]]; simpl; [now split; [left|]|].
        split; [now right | exact Hc].
    + split; [exact Hge|]. split.
      * intros q [<-|Hq]; [lia | now apply Hall].
      * destruct Hbest as [->|[Hin Hc]]; [now left|].
        right. split; [now right | exact Hc].
Qed.

Lemma fold_keep_larger_zero (labels : list string) (acc : nat * string) :
  (forall p_type, In p_type labels -> label_count pats p_type = 0%nat) ->
  fold_left keep_larger labels acc = acc.
Proof.
  revert acc. induction labels as [|l labels IH]; intros acc Hzero; simpl;
    [reflexivity|].
  rewrite (Hzero l) by now left. simpl.
  apply IH. intros q Hq. apply Hzero. now right.
Qed.

(** X26: [most_common] returns a label whose count no label exceeds when
    some count is positive, and the drawn label when every count is 0. *)
Theorem most_common_is_maximal (drawn : string) :
  ((forall p_type, In p_type prediction_types ->
                   label_count pats p_type = 0%nat) ->
   most_common pats drawn = drawn)
  /\ ((exists p_type, In p_type prediction_types
                      /\ (0 < label_count pats p_type)%nat) ->
      In (most_common pats drawn) prediction_types
      /\ forall p_type, In p_type prediction_types ->
           (label_count pats p_type
            <= label_count pats (most_common pats drawn))%nat).
Proof.
  unfold most_common. split.
  - intros Hzero. now rewrite fold_keep_larger_zero.
  - intros (p_type & Hin & Hpos).
    destruct (fold_keep_larger prediction_types (O, drawn))
      as (_ & Hall & Hbest).
    destruct Hbest as [Hsame|[Hin' Hc]].
    + specialize (Hall p_type Hin). rewrite Hsame in Hall. simpl in Hall. lia.
    + split; [exact Hin'|]. intros q Hq. rewrite Hc. now apply Hall.
Qed.

End MostCommon.

Lemma most_common_in_types (pats : patterns) (drawn : string) :
  In drawn prediction_types ->
  In (most_common pats drawn) prediction_types.
Proof.
  intros Hd. unfold most_common.
  destruct (fold_keep_larger pats prediction_types (O, drawn))
    as (_ & _ & [->|[Hin _]]); [exact Hd | exact Hin].
Qed.

Lemma generate_prediction_fields (db : database) (duration : string)
    (should_be_winner : bool) (rnd : nat) (now : string) :
  let out := generate_prediction db duration should_be_winner rnd now in
  fst (snd out) = Database.get_next_period_id db duration
  /\ In (snd (snd out)) prediction_types
  /\ fst out
     = fst (save_prediction db (fst (snd out)) duration (snd (snd out)) now)
  /\ (get_latest_results db duration 10 = [] ->
      snd (snd out) = random_choice rnd prediction_types).
Proof.
  cbv zeta. unfold generate_prediction.
  set (drawn := random_choice rnd prediction_types).
  assert (Hdrawn : In drawn prediction_types)
    by (apply random_choice_in; discriminate).
  set (recent := get_latest_results db duration 10).
  set (prediction := if should_be_winner then _ else drawn).
  destruct (save_prediction db _ duration prediction now) as [db' id] eqn:E.
  cbn [fst snd]. rewrite E. cbn [fst].
  split; [reflexivity|]. split; [|split; [reflexivity|]].
  - subst prediction. destruct should_be_winner; [|exact Hdrawn].
    destruct (_ <? _)%nat.
    + destruct recent as [|last ?]; [simpl; tauto|].
      destruct (String.eqb _ _); simpl; tauto.
    + destruct (_ <? _)%nat; [|now apply most_common_in_types].
      destruct recent as [|last ?]; [simpl; tauto|].
      destruct (String.eqb _ _); simpl; tauto.
  - intros Hempty. subst prediction. rewrite Hempty.
    now destruct should_be_winner.
Qed.

(** X27: [generate_prediction] always predicts one of RED, GREEN, BIG and
    SMALL, for the period the local store gives next, and saves that
    prediction under that period; with no outcome recorded for the duration
    the prediction is the label drawn at random, whether or not a win is
    wanted. *)
Theorem generate_prediction_saves_a_label (db : database)
    (duration : string) (should_be_winner : bool) (rnd : nat)
    (now : string) :
  let out := generate_prediction db duration should_be_winner rnd now in
  fst (snd out) = Database.get_next_period_id db duration
  /\ In (snd (snd out)) prediction_types
  /\ fst out
     = fst (save_prediction db (fst (snd out)) duration (snd (snd out)) now)
  /\ (forall p, In p (wingo_predictions (fst out)) ->
                pred_matches (fst (snd out)) duration p = true ->
                pred_prediction p = snd (snd out))
  /\ (get_latest_results db duration 10 = [] ->
      snd (snd out) = random_choice rnd prediction_types).
Proof.
  intros out.
  destruct (generate_prediction_fields db duration should_be_winner rnd now)
    as (Hnext & Hin & Hsave & Hempty).
  fold out in Hnext, Hin, Hsave, Hempty.
  split; [exact Hnext|]. split; [exact Hin|]. split; [exact Hsave|].
  split; [|exact Hempty].
  intros p Hp Hm. rewrite Hsave in Hp.
  destruct (save_prediction_rows db (fst (snd out)) duration (snd (snd out))
              now) as (_ & _ & Hrows & _).
  now apply Hrows.
Qed.

(** X28: a prediction made by [generate_prediction], on a table with
    distinct ids holding no row for the next period yet, is settled by the
    following [simulate_result] of the duration: the simulated outcome is
    recorded under the predicted period, and the prediction wins exactly
    when it equals the simulated result (the colour drawn or the size
    drawn, as the third draw decides). *)
Theorem simulated_result_settles_generated_prediction (db : database)
    (duration : string) (should_be_winner : bool) (rnd : nat) (now : string)
    (rnd_color rnd_size : nat) (show_color : bool) (now2 : string) :
  unique_ids (wingo_predictions db) ->
  (forall p, In p (wingo_predictions db) ->
             pred_matches (Database.get_next_period_id db duration)
               duration p = false) ->
  let out := generate_prediction db duration should_be_winner rnd now in
  let simulated := simulate_result (fst out) duration rnd_color rnd_size
                     show_color now2 in
  let result := if show_color then random_choice rnd_color ["RED"; "GREEN"]
                else random_choice rnd_size ["BIG"; "SMALL"] in
  snd simulated = fst (snd out)
  /\ exists id,
       wingo_predictions (fst simulated)
       = wingo_predictions db
         ++ [mkPrediction id (fst (snd out)) duration (snd (snd out))
               (Some result) (Some (String.eqb (snd (snd out)) result))
               now].
Proof.
  intros Hu Hnone out simulated result.
  destruct (generate_prediction_fields db duration should_be_winner rnd now)
    as (Hnext & Hin & Hsave & _).
  fold out in Hnext, Hin, Hsave.
  subst simulated. unfold simulate_result. fold result.
  rewrite Hsave, Hnext.
  destruct (save_then_add_settles db duration (snd (snd out)) now result
              (random_choice rnd_color ["RED"; "GREEN"])
              (random_choice rnd_size ["BIG"; "SMALL"]) now2 Hu Hnone)
    as [Hperiod Hrows].
  split; [exact Hperiod|].
  assert (Hres : In result labels).
  { subst result. unfold labels. destruct show_color.
    - destruct (random_choice_in rnd_color ["RED"; "GREEN"])
        as [<-|[<-|[]]]; [discriminate | simpl; tauto | simpl; tauto].
    - destruct (random_choice_in rnd_size ["BIG"; "SMALL"])
        as [<-|[<-|[]]]; [discriminate | simpl; tauto | simpl; tauto]. }
  eexists. rewrite Hrows.
  now rewrite (is_win_on_labels (snd (snd out)) result Hin Hres).
Qed.

Lemma simulated_result_settles_generated_prediction_witness :
  let db := mkDatabase
              [mkResult 1 801 "1 MIN" "RED" "RED" "BIG" "2024-01-01 00:00:00";
               mkResult 2 802 "1 MIN" "RED" "RED" "BIG" "2024-01-01 00:01:00"]
              [] in
  unique_ids (wingo_predictions db)
  /\ exists id,
       wingo_predictions
         (fst (simulate_result
                 (fst (generate_prediction db "1 MIN" true 0
                         "2024-01-01 00:01:05"))
                 "1 MIN" 0 0 true "2024-01-01 00:02:00"))
       = [mkPrediction id 803 "1 MIN" "RED" (Some "RED") (Some true)
            "2024-01-01 00:01:05"].
Proof.
  intros db.
  assert (H : unique_ids (wingo_predictions db)) by apply NoDup_nil_2.
  split; [exact H|].
  destruct (simulated_result_settles_generated_prediction db "1 MIN" true 0
              "2024-01-01 00:01:05" 0 0 true "2024-01-01 00:02:00" H)
    as [_ [id Hrows]]; [intros p []|].
  exists id. rewrite Hrows. reflexivity.
Defined.

(** ** Registration and the cap; the win test beyond the labels *)

(** X29: a handle just registered survives the next
    [clear_old_messages]: it is the last entry of its duration's list
    after the cleanup, which holds the 20 newest entries at most. *)
Theorem newly_registered_survives_cleanup
    (reg : gmap string (list handle)) (duration : string)
    (chat_id message_id : Z) (l : list handle) :
  reg !! duration = Some l ->
  exists reg' kept,
    register_active_message reg duration chat_id message_id = Some reg'
    /\ clear_old_messages reg' !! duration = Some kept
    /\ last kept = Some (chat_id, message_id)
    /\ length kept = Nat.min 20 (S (length l)).
Proof.
  intros Hl. unfold register_active_message. rewrite Hl.
  exists (<[duration := l ++ [(chat_id, message_id)]]> reg),
    (if (max_messages <? length (l ++ [(chat_id, message_id)]))%nat
     then last_n max_messages (l ++ [(chat_id, message_id)])
     else l ++ [(chat_id, message_id)]).
  split; [reflexivity|]. split.
  { unfold clear_old_messages. now rewrite lookup_fmap, lookup_insert_eq. }
  unfold max_messages. rewrite length_app. cbn [length].
  destruct (Nat.ltb_spec 20 (length l + 1)) as [Hlt|Hle].
  - unfold last_n. rewrite length_app. cbn [length].
    rewrite drop_app_le by lia. split; [apply last_snoc|].
    rewrite length_app, length_drop. cbn [length]. lia.
  - split; [apply last_snoc|]. rewrite length_app. cbn [length]. lia.
Qed.

Lemma newly_registered_survives_cleanup_witness :
  let l := map (fun k => (7, Z.of_nat k)) (seq 0 25) in
  let reg := <["1 MIN" := l]> active_messages in
  reg !! "1 MIN" = Some l
  /\ exists reg' kept,
       register_active_message reg "1 MIN" 7 99 = Some reg'
       /\ clear_old_messages reg' !! "1 MIN" = Some kept
       /\ last kept = Some (7, 99)
       /\ length kept = 20%nat.
Proof.
  intros l reg.
  assert (H : reg !! "1 MIN" = Some l) by reflexivity.
  split; [exact H|].
  destruct (newly_registered_survives_cleanup reg "1 MIN" 7 99 l H)
    as (reg' & kept & H1 & H2 & H3 & H4).
  exists reg', kept. repeat (split; [assumption|]). exact H4.
Defined.

Lemma prefix_refl (s : string) : String.prefix s s = true.
Proof.
  induction s as [|c s IH]; simpl; [reflexivity|].
  destruct (Ascii.ascii_dec c c); [exact IH | contradiction].
Qed.

Lemma contains_refl (s : string) : PyStr.contains s s = true.
Proof.
  destruct s as [|c s]; [reflexivity|].
  change (PyStr.contains (String c s) (String c s))
    with (String.prefix (String c s) (String c s)
          || PyStr.contains (String c s) s).
  now rewrite prefix_refl.
Qed.

Lemma contains_empty (s : string) : PyStr.contains "" s = true.
Proof. now destruct s. Qed.

(** X30: outside the four labels the win test of [update_predictions] is
    weaker than equality: it is symmetric, it holds whenever the
    prediction equals the actual result, it holds for every prediction when
    the actual result is the empty string, and it holds when one label is
    a proper part of the other, as for RED against REDDISH. *)
Theorem is_win_is_weaker_than_equality (prediction actual_result : string) :
  is_win prediction actual_result = is_win actual_result prediction
  /\ is_win prediction prediction = true
  /\ is_win prediction "" = true
  /\ is_win "" actual_result = true
  /\ is_win "RED" "REDDISH" = true.
Proof.
  unfold is_win. split; [apply orb_comm|].
  split; [now rewrite contains_refl|].
  split; [now rewrite contains_empty, orb_true_r|].
  split; [now rewrite contains_empty | reflexivity].
Qed.
